(** * charls-image-test: the round-trip test driver of [src/main.cpp]

    A shallow embedding of the test driver and the properties of it that
    the specification states.  The external collaborators (the anymap
    reader, the JPEG-LS encoder and decoder, the directory iterator) are
    parameters of the development; [std::vector<std::byte>] is a list of
    bytes, [size_t] is a [Z] with its wrap-around at [2^64] written out, and
    console output, file writes and the calls into the codec are recorded
    in an event trace. *)

From Stdlib Require Import ZArith Lia.
From Stdlib.Strings Require Import Byte Ascii String.
From stdpp Require Import base option list gmap strings.

Local Open Scope Z_scope.

(** ** Bytes, [size_t] and vector accesses *)

Abbreviation byte := Byte.byte.

#[global] Instance byte_eq_dec : EqDecision byte := Byte.byte_eq_dec.

Definition byte_to_Z (b : byte) : Z := Z.of_N (Byte.to_N b).

Definition byte_of_Z (z : Z) : byte :=
  match Byte.of_N (Z.to_N z) with
  | Some b => b
  | None => Byte.x00
  end.

Definition bytes_of (l : list Z) : list byte := byte_of_Z <$> l.

(** [size_t] arithmetic is unsigned 64-bit arithmetic. *)
Definition SIZE_MODULUS : Z := 18446744073709551616.

Definition size_t (z : Z) : Z := z mod SIZE_MODULUS.

(** [v[i]] on a [std::vector<byte>]: reading or writing past the end is
    undefined behaviour, which the embedding reports as [None]. *)
Definition vec_get (v : list byte) (i : Z) : option byte :=
  if decide (0 ≤ i) then v !! Z.to_nat i else None.

Definition vec_set (v : list byte) (i : Z) (x : byte) : option (list byte) :=
  if decide (0 ≤ i < Z.of_nat (length v)) then Some (<[Z.to_nat i := x]> v) else None.

(** The buffer seen through a [uint16_t*]: sample [j] is the two bytes at
    [2j] and [2j+1] (host byte order, taken little-endian here; the transform
    only moves samples, so the byte order does not show in its result). *)
Definition get16 (v : list byte) (j : Z) : option Z :=
  lo ← vec_get v (2 * j);
  hi ← vec_get v (2 * j + 1);
  Some (byte_to_Z lo + 256 * byte_to_Z hi).

Definition set16 (v : list byte) (j : Z) (x : Z) : option (list byte) :=
  v1 ← vec_set v (2 * j) (byte_of_Z (x mod 256));
  vec_set v1 (2 * j + 1) (byte_of_Z (x / 256)).

(** Sample [j] of a buffer, through the accessor that the bit depth selects. *)
Definition sample_get (bits_per_sample : Z) (v : list byte) (j : Z) : option Z :=
  if decide (bits_per_sample > 8) then get16 v j else byte_to_Z <$> vec_get v j.

(** ** [triplet_to_planar] *)

(** The loop of the 8-bit branch, [count] iterations left, loop variable [i]. *)
Fixpoint triplet_to_planar_loop8 (count : nat) (i samples_per_plane : Z)
    (buffer work_buffer : list byte) : option (list byte) :=
  match count with
  | O => Some work_buffer
  | S count' =>
      s0 ← vec_get buffer (size_t (size_t (i * 3) + 0));
      w0 ← vec_set work_buffer i s0;
      s1 ← vec_get buffer (size_t (size_t (i * 3) + 1));
      w1 ← vec_set w0 (size_t (i + size_t (1 * samples_per_plane))) s1;
      s2 ← vec_get buffer (size_t (size_t (i * 3) + 2));
      w2 ← vec_set w1 (size_t (i + size_t (2 * samples_per_plane))) s2;
      triplet_to_planar_loop8 count' (size_t (i + 1)) samples_per_plane buffer w2
  end.

(** The loop of the 16-bit branch. *)
Fixpoint triplet_to_planar_loop16 (count : nat) (i samples_per_plane : Z)
    (buffer work_buffer : list byte) : option (list byte) :=
  match count with
  | O => Some work_buffer
  | S count' =>
      s0 ← get16 buffer (size_t (size_t (i * 3) + 0));
      w0 ← set16 work_buffer i s0;
      s1 ← get16 buffer (size_t (size_t (i * 3) + 1));
      w1 ← set16 w0 (size_t (i + size_t (1 * samples_per_plane))) s1;
      s2 ← get16 buffer (size_t (size_t (i * 3) + 2));
      w2 ← set16 w1 (size_t (i + size_t (2 * samples_per_plane))) s2;
      triplet_to_planar_loop16 count' (size_t (i + 1)) samples_per_plane buffer w2
  end.

(** [triplet_to_planar(buffer, width, height, bits_per_sample)]: the new
    contents of [buffer], or [None] when an access is out of bounds.  The
    loop [for (i = 0; i != samples_per_plane; ++i)] runs [samples_per_plane]
    times. *)
Definition triplet_to_planar (buffer : list byte) (width height : Z)
    (bits_per_sample : Z) : option (list byte) :=
  let work_buffer := replicate (length buffer) Byte.x00 in
  let samples_per_plane := size_t (width * height) in
  if decide (bits_per_sample > 8)
  then triplet_to_planar_loop16 (Z.to_nat samples_per_plane) 0 samples_per_plane buffer work_buffer
  else triplet_to_planar_loop8 (Z.to_nat samples_per_plane) 0 samples_per_plane buffer work_buffer.

(** ** Interleave modes *)

(** [charls::interleave_mode], an enumeration over [int] with the values
    0, 1 and 2. *)
Inductive interleave_mode := none | line | sample.

#[global] Instance interleave_mode_eq_dec : EqDecision interleave_mode.
Proof. solve_decision. Defined.

Definition interleave_mode_value (m : interleave_mode) : Z :=
  match m with
  | none => 0
  | line => 1
  | sample => 2
  end.

(** How a call of [interleave_mode_to_string] ends: in a [return] of the
    [switch], or past the [switch] in [assert(false)]. *)
Inductive switch_exit :=
  | Returned (name : string)
  | AssertFalse.

(** The [switch] of [interleave_mode_to_string] over the value of its
    argument. *)
Definition interleave_mode_to_string_switch (value : Z) : switch_exit :=
  if decide (value = 0) then Returned "none"
  else if decide (value = 1) then Returned "line"
  else if decide (value = 2) then Returned "sample"
  else AssertFalse.

(** With assertions compiled out, the code after the [switch] returns the
    empty string. *)
Definition interleave_mode_to_string (m : interleave_mode) : string :=
  match interleave_mode_to_string_switch (interleave_mode_value m) with
  | Returned name => name
  | AssertFalse => ""
  end.

(** ** [std::filesystem::path] *)

(** Paths in the generic format, with [/] as the only separator and no root
    names.  The functions below follow the descriptions of the members of
    [std::filesystem::path] for that format. *)
Module path.

(** [rsplit c s]: [s] cut at its last [c]. *)
Fixpoint rsplit (c : ascii) (s : string) : option (string * string) :=
  match s with
  | EmptyString => None
  | String a s' =>
      match rsplit c s' with
      | Some (before, after) => Some (String a before, after)
      | None => if decide (a = c) then Some (EmptyString, s') else None
      end
  end.

Definition filename (p : string) : string :=
  match rsplit "/" p with
  | Some (_, f) => f
  | None => p
  end.

Definition remove_filename (p : string) : string :=
  match rsplit "/" p with
  | Some (dir, _) => dir +:+ "/"
  | None => ""
  end.

(** The extension starts at the last period of the filename, unless the
    filename is [.] or [..] or that period is its first character. *)
Definition extension (p : string) : string :=
  let f := filename p in
  if decide (f = "." ∨ f = "..") then ""
  else match rsplit "." f with
       | Some (before, after) => if decide (before = "") then "" else "." +:+ after
       | None => ""
       end.

Definition stem (p : string) : string :=
  let f := filename p in
  if decide (f = "." ∨ f = "..") then f
  else match rsplit "." f with
       | Some (before, _) => if decide (before = "") then f else before
       | None => f
       end.

Definition has_filename (p : string) : bool := bool_decide (filename p ≠ "").

Definition is_absolute (p : string) : bool :=
  match p with
  | String "/" _ => true
  | _ => false
  end.

(** [operator/=] *)
Definition append (p r : string) : string :=
  if is_absolute r then r
  else if has_filename p then p +:+ "/" +:+ r
  else p +:+ r.

Definition replace_filename (p r : string) : string :=
  append (remove_filename p) r.

Definition replace_extension (p r : string) : string :=
  let base := String.substring 0 (String.length p - String.length (extension p)) p in
  let dot := match r with
             | EmptyString => ""
             | String "." _ => ""
             | _ => "."
             end in
  base +:+ dot +:+ r.

End path.

Definition generate_output_filename (source_filename : string)
    (mode : interleave_mode) : string :=
  let output_filename := source_filename in
  let output_filename :=
    path.replace_filename output_filename
      (path.stem output_filename +:+ "-" +:+ interleave_mode_to_string mode) in
  path.replace_extension output_filename ".jls".

(** ** The world of the test driver *)

(** An exception, by its [what()].  The exceptions of the model are those
    derived from [std::exception], the ones the handler of [main] catches;
    an exception of another type, which would leave [main], is not
    modelled. *)
Definition exn := string.

(** The steps of the driver that the properties speak of, in the order in
    which they happen. *)
Inductive event :=
  | EvPuts (text : string)
      (** a line on standard output *)
  | EvPutsInfo (original_size encoded_size : Z) (mode_label : string) (label_width : Z)
      (** the [" Info: ..."] line, without its floating-point fields; it is a
          line on standard output as well, printed through [puts] *)
  | EvClock
      (** [steady_clock::now()] *)
  | EvScan (directory : string)
      (** a [recursive_directory_iterator] is opened *)
  | EvOpen (filename : string)
      (** a [portable_anymap_file] is read *)
  | EvEncode (mode : interleave_mode) (source : list byte)
      (** [jpegls_encoder::encode] *)
  | EvWrite (filename : string) (data : list byte)
      (** a file is truncated and written *)
  | EvTestByDecoding (encoded_source original_source : list byte)
      (** [test_by_decoding] is entered *)
  | EvDecode (encoded_source : list byte)
      (** [jpegls_decoder::decode] *)
  | EvCompare (i : Z).
      (** [decoded[i] != original_source[i]] is evaluated *)

(** The end of a computation: a value, an exception on its way up, or
    undefined behaviour. *)
Inductive outcome (A : Type) :=
  | Ok (a : A)
  | Throw (what : exn)
  | Undefined.
Arguments Ok {A} a.
Arguments Throw {A} what.
Arguments Undefined {A}.

(** A computation runs on the files of the machine and leaves an outcome,
    the files and the trace of its events. *)
Record run (A : Type) := Run {
  run_outcome : outcome A;
  run_files : gmap string (list byte);
  run_trace : list event
}.
Arguments Run {A} _ _ _.
Arguments run_outcome {A} _.
Arguments run_files {A} _.
Arguments run_trace {A} _.

Definition M (A : Type) : Type := gmap string (list byte) → run A.

Definition ret {A} (a : A) : M A := λ fs, Run (Ok a) fs [].

Definition bind {A B} (m : M A) (k : A → M B) : M B := λ fs,
  let r := m fs in
  match run_outcome r with
  | Ok a =>
      let r' := k a (run_files r) in
      Run (run_outcome r') (run_files r') (run_trace r ++ run_trace r')
  | Throw what => Run (Throw what) (run_files r) (run_trace r)
  | Undefined => Run Undefined (run_files r) (run_trace r)
  end.

(** A run after the events [trace]. *)
Definition prepend {A} (trace : list event) (r : run A) : run A :=
  Run (run_outcome r) (run_files r) (trace ++ run_trace r).

Declare Scope M_scope.
Delimit Scope M_scope with M.
Notation "x <- m ;; k" := (bind m (λ x, k))
  (at level 100, m at level 99, k at level 200, right associativity) : M_scope.
Notation "m ;; k" := (bind m (λ _, k))
  (at level 100, k at level 200, right associativity) : M_scope.

Definition emit (e : event) : M unit := λ fs, Run (Ok tt) fs [e].

Definition throw {A} (what : exn) : M A := λ fs, Run (Throw what) fs [].

Definition undefined {A} : M A := λ fs, Run Undefined fs [].

(** The result of a call into an external library, which may throw. *)
Definition lift {A} (r : exn + A) : M A :=
  match r with
  | inl what => throw what
  | inr a => ret a
  end.

(** The result of code that has undefined behaviour where it is [None]. *)
Definition defined {A} (o : option A) : M A :=
  match o with
  | Some a => ret a
  | None => undefined
  end.

(** [try { body } catch (const std::exception& error) { handler }], for the
    exceptions of the model; the handler is run as it is written, and the
    formatting of its message is taken not to throw. *)
Definition try_catch {A} (body : M A) (handler : exn → M A) : M A := λ fs,
  let r := body fs in
  match run_outcome r with
  | Throw what =>
      let r' := handler what (run_files r) in
      Run (run_outcome r') (run_files r') (run_trace r ++ run_trace r')
  | _ => r
  end.

(** [puts(str)] *)
Definition puts (str : string) : M unit := emit (EvPuts str).

(** ** The external collaborators *)

(** [portable_anymap_file], as the driver reads it. *)
Record portable_anymap_file := {
  width : Z;
  height : Z;
  bits_per_sample : Z;
  component_count : Z;
  image_data : list byte
}.

(** [charls::frame_info] *)
Record frame_info := {
  fi_width : Z;
  fi_height : Z;
  fi_bits_per_sample : Z;
  fi_component_count : Z
}.

(** The anymap reader, the CharLS encoder and decoder and the file system,
    as far as the driver calls them.  Each call either returns or throws. *)
Class Externals := {
  (** [portable_anymap_file(filename)], on the contents of the file *)
  anymap_read : list byte → exn + portable_anymap_file;
  (** a [jpegls_encoder] after [frame_info(...)] and [interleave_mode(...)] *)
  encoder : Type;
  encoder_configure : frame_info → interleave_mode → exn + encoder;
  estimated_destination_size : encoder → exn + Z;
  (** [encode(source)] into the destination buffer: the buffer after the
      call and the number of bytes written *)
  encode : encoder → list byte → list byte → exn + (list byte * Z);
  (** [jpegls_decoder{source, true}], which reads the header *)
  decoder : Type;
  decoder_new : list byte → exn + decoder;
  destination_size : decoder → exn + Z;
  (** [decode(destination)]: the destination buffer after the call *)
  decode : decoder → list byte → exn + list byte;
  near_lossless : decoder → Z;
  (** whether a file of that name can be opened for writing *)
  writable : string → bool;
  (** the entries a [recursive_directory_iterator] yields, in its order *)
  directory_entries : gmap string (list byte) → string → exn + list string
}.

Section Driver.
Context {ext : Externals}.
Local Open Scope M_scope.

(** [portable_anymap_file reference_file(filename)] *)
Definition open_anymap (filename : string) : M portable_anymap_file := λ fs,
  (emit (EvOpen filename) ;;
   match fs !! filename with
   | Some contents => lift (anymap_read contents)
   | None => throw "cannot open file"
   end) fs.

(** [ofstream output(name, binary | trunc)], [output.exceptions(...)] and
    [output.write(...)]: the file is replaced by [data], or the stream
    throws. *)
Definition write_file (filename : string) (data : list byte) : M unit := λ fs,
  if writable filename
  then Run (Ok tt) (<[filename := data]> fs) [EvWrite filename data]
  else Run (Throw "ios_base::failure") fs [].

Definition with_image_data (f : portable_anymap_file) (data : list byte)
    : portable_anymap_file :=
  {| width := width f; height := height f; bits_per_sample := bits_per_sample f;
     component_count := component_count f; image_data := data |}.

Definition read_anymap_reference_file (filename : string)
    (mode : interleave_mode) : M portable_anymap_file :=
  reference_file <- open_anymap filename ;;
  if decide (mode = none ∧ component_count reference_file = 3)
  then
    data <- defined (triplet_to_planar (image_data reference_file)
                       (size_t (width reference_file)) (size_t (height reference_file))
                       (bits_per_sample reference_file)) ;;
    ret (with_image_data reference_file data)
  else ret reference_file.

(** The comparison loop of [test_by_decoding], [count] iterations left. *)
Fixpoint compare_loop (count : nat) (i : Z) (decoded original_source : list byte)
    : M bool :=
  match count with
  | O => ret true
  | S count' =>
      emit (EvCompare i) ;;
      d <- defined (vec_get decoded i) ;;
      o <- defined (vec_get original_source i) ;;
      if decide (d ≠ o)
      then puts "Pixel data value doesn't match" ;; ret false
      else compare_loop count' (size_t (i + 1)) decoded original_source
  end.

(** [test_by_decoding]; the decode duration it also hands back is not
    modelled beyond the two readings of the clock. *)
Definition test_by_decoding (encoded_source original_source : list byte) : M bool :=
  emit (EvTestByDecoding encoded_source original_source) ;;
  dec <- lift (decoder_new encoded_source) ;;
  size <- lift (destination_size dec) ;;
  let decoded := replicate (Z.to_nat size) Byte.x00 in
  emit EvClock ;;
  emit (EvDecode encoded_source) ;;
  decoded <- lift (decode dec decoded) ;;
  emit EvClock ;;
  if decide (length decoded ≠ length original_source)
  then puts "Pixel data size doesn't match" ;; ret false
  else
    if decide (near_lossless dec = 0)
    then compare_loop (length original_source) 0 decoded original_source
    else ret true.

Definition check_file (source_filename : string) (mode : interleave_mode)
    (color : bool) : M bool :=
  reference_file <- read_anymap_reference_file source_filename mode ;;
  enc <- lift (encoder_configure
                 {| fi_width := width reference_file;
                    fi_height := height reference_file;
                    fi_bits_per_sample := bits_per_sample reference_file;
                    fi_component_count := component_count reference_file |} mode) ;;
  estimate <- lift (estimated_destination_size enc) ;;
  let charls_encoded_data := replicate (Z.to_nat estimate) Byte.x00 in
  emit EvClock ;;
  emit (EvEncode mode (image_data reference_file)) ;;
  encoded <- lift (encode enc charls_encoded_data (image_data reference_file)) ;;
  let '(charls_encoded_data, encoded_size) := encoded in
  emit EvClock ;;
  let charls_encoded_data := resize (Z.to_nat encoded_size) Byte.x00 charls_encoded_data in
  write_file (generate_output_filename source_filename mode) charls_encoded_data ;;
  result <- test_by_decoding charls_encoded_data (image_data reference_file) ;;
  let interleave_mode_width := if color then 6 else 4 in
  emit (EvPutsInfo (Z.of_nat (length (image_data reference_file))) encoded_size
          (interleave_mode_to_string mode) interleave_mode_width) ;;
  ret result.

Definition check_color_file (source_filename : string) : M bool :=
  result <- check_file source_filename none true ;;
  if negb result then ret result
  else
    result <- check_file source_filename line true ;;
    if negb result then ret result
    else check_file source_filename sample true.

Definition EXIT_SUCCESS : Z := 0.
Definition EXIT_FAILURE : Z := 1.

(** The body of the [for] loop of [main] over the directory entries. *)
Fixpoint main_loop (entries : list string) : M Z :=
  match entries with
  | [] => ret EXIT_SUCCESS
  | entry :: rest =>
      let monochrome_anymap := bool_decide (path.extension entry = ".pgm") in
      let color_anymap := bool_decide (path.extension entry = ".ppm") in
      if monochrome_anymap || color_anymap
      then
        puts ("Checking file: " +:+ entry) ;;
        result <- (if monochrome_anymap then check_file entry none false
                   else check_color_file entry) ;;
        puts (" Status: " +:+ (if result then "Passed" else "Failed")) ;;
        if negb result then ret EXIT_FAILURE else main_loop rest
      else main_loop rest
  end.

(** [main(argc, argv)], with [argc] the length of [argv]. *)
Definition main (argv : list string) : M Z :=
  try_catch
    (if decide (Z.of_nat (length argv) < 2)
     then puts "usage: charls_image_tester <directory-to-test>" ;; ret EXIT_FAILURE
     else
       directory <- defined (argv !! 1%nat) ;;
       emit (EvScan directory) ;;
       entries <- (λ fs, lift (directory_entries fs directory) fs) ;;
       main_loop entries)
    (λ what, puts ("Unexpected failure: " +:+ what) ;; ret EXIT_FAILURE).

End Driver.

(** The two lines [test_by_decoding] can print. *)
Definition size_mismatch : event := EvPuts "Pixel data size doesn't match".
Definition value_mismatch : event := EvPuts "Pixel data value doesn't match".

(** The modes handed to the encoder in a trace, in order. *)
Definition encoded_modes (trace : list event) : list interleave_mode :=
  omap (λ e, match e with EvEncode m _ => Some m | _ => None end) trace.

(** The reference buffers handed to [test_by_decoding] in a trace, in order. *)
Definition validated_against (trace : list event) : list (list byte) :=
  omap (λ e, match e with EvTestByDecoding _ original => Some original | _ => None end) trace.

(** The lines on standard output: the events of [puts], the Info line of
    [check_file] among them. *)
Definition printed (e : event) : bool :=
  match e with
  | EvPuts _ | EvPutsInfo _ _ _ _ => true
  | _ => false
  end.

(** The lines printed in a trace, in order. *)
Definition printed_lines (trace : list event) : list event :=
  omap (λ e, if printed e then Some e else None) trace.

(** ** The inverse regrouping of the specification *)

(** Sample [j] of a buffer whose samples are [unit] bytes wide. *)
Definition sample_at (unit : nat) (buffer : list byte) (j : nat) : list byte :=
  take unit (drop (j * unit) buffer).

Definition bytes_per_sample (bits_per_sample : Z) : nat :=
  if decide (bits_per_sample > 8) then 2%nat else 1%nat.

(** Planar back to sample-interleaved, in the words of the specification:
    pixel by pixel in scan order, the sample of the pixel in the first plane,
    then in the second, then in the third. *)
Definition planar_to_triplet (planar : list byte) (width height : Z)
    (bits_per_sample : Z) : list byte :=
  let unit := bytes_per_sample bits_per_sample in
  let samples_per_plane := Z.to_nat (width * height) in
  mjoin ((λ i, sample_at unit planar i
               ++ sample_at unit planar (i + samples_per_plane)
               ++ sample_at unit planar (i + 2 * samples_per_plane))
         <$> seq 0 samples_per_plane).

(** ** A codec to run the driver on *)

(** A test double for the external collaborators.  An anymap file is four
    header bytes (width, height, bits per sample, component count) and the
    samples; a bitstream is the near-lossless parameter, the interleave mode
    and the samples as they are.  The decoder of [mock_codec near broken] returns
    the stored samples with the first one changed when the stream was written
    in a mode that [broken] names. *)
Module Mock.

Definition anymap_read (contents : list byte) : exn + portable_anymap_file :=
  match contents with
  | w :: h :: b :: c :: data =>
      inr {| width := byte_to_Z w; height := byte_to_Z h;
             bits_per_sample := byte_to_Z b; component_count := byte_to_Z c;
             image_data := data |}
  | _ => inl "anymap header missing"%string
  end.

Definition estimated_destination_size (e : frame_info * interleave_mode) : exn + Z :=
  let fi := e.1 in
  inr (fi_width fi * fi_height fi * fi_component_count fi
       * Z.of_nat (bytes_per_sample (fi_bits_per_sample fi)) + 2).

Definition encode (near : Z) (e : frame_info * interleave_mode)
    (destination source : list byte) : exn + (list byte * Z) :=
  let stream := byte_of_Z near :: byte_of_Z (interleave_mode_value e.2) :: source in
  if decide (length stream ≤ length destination)%nat
  then inr (stream ++ drop (length stream) destination, Z.of_nat (length stream))
  else inl "destination buffer too small"%string.

Definition decoder_new (source : list byte) : exn + list byte :=
  match source with
  | _ :: _ :: _ => inr source
  | _ => inl "header missing"%string
  end.

Definition destination_size (d : list byte) : exn + Z :=
  inr (Z.of_nat (length d) - 2).

Definition spoil (data : list byte) : list byte :=
  match data with
  | b :: rest => byte_of_Z ((byte_to_Z b + 1) mod 256) :: rest
  | [] => []
  end.

Definition decode (broken : Z → bool) (d destination : list byte) : exn + list byte :=
  match d with
  | _ :: m :: data =>
      if decide (length destination = length data)
      then inr (if broken (byte_to_Z m) then spoil data else data)
      else inl "destination size"%string
  | _ => inl "header missing"%string
  end.

Definition near_lossless (d : list byte) : Z :=
  match d with
  | n :: _ => byte_to_Z n
  | [] => 0
  end.

Definition directory_entries (fs : gmap string (list byte)) (directory : string)
    : exn + list string :=
  inr (filter (λ name, String.prefix directory name = true) (elements (dom fs))).

End Mock.

Definition mock_codec (near : Z) (broken : Z → bool) : Externals := {|
  anymap_read := Mock.anymap_read;
  encoder := frame_info * interleave_mode;
  encoder_configure := λ fi m, inr (fi, m);
  estimated_destination_size := Mock.estimated_destination_size;
  encode := Mock.encode near;
  decoder := list byte;
  decoder_new := Mock.decoder_new;
  destination_size := Mock.destination_size;
  decode := Mock.decode broken;
  near_lossless := Mock.near_lossless;
  writable := λ _, true;
  directory_entries := Mock.directory_entries
|}.

(** The codec that stores and returns the samples as they are, the one whose
    decoder spoils streams written in mode [line], and one that writes
    near-lossless streams. *)
Definition lossless_codec : Externals := mock_codec 0 (λ _, false).
Definition line_broken_codec : Externals := mock_codec 0 (λ m, bool_decide (m = 1)).
Definition near_lossless_codec : Externals := mock_codec 3 (λ _, false).

(** ** Test images *)

(** The 4x2, 8-bit, 3-component image of the specification, with
    [R i = 10 + i], [G i = 20 + i] and [B i = 30 + i]. *)
Definition rgb_4x2 : list byte :=
  bytes_of [10;20;30; 11;21;31; 12;22;32; 13;23;33; 14;24;34; 15;25;35; 16;26;36; 17;27;37].

(** A 2x1, 16-bit, 3-component image. *)
Definition rgb16_2x1 : list byte := bytes_of [1;2; 3;4; 5;6; 7;8; 9;10; 11;12].

(** A 2x1, 8-bit, 3-component image, the anymap file that holds it and this
    file as the reader returns it. *)
Definition rgb_2x1 : list byte := bytes_of [1;2;3;4;5;6].

Definition rgb_2x1_file : list byte := bytes_of [2;1;8;3] ++ rgb_2x1.

Definition rgb_2x1_loaded : portable_anymap_file :=
  {| width := 2; height := 1; bits_per_sample := 8; component_count := 3;
     image_data := rgb_2x1 |}.

(** The same image, plane by plane, and the stream the mock encoder makes of
    it in mode [none]. *)
Definition rgb_2x1_planar : list byte := bytes_of [1;4;2;5;3;6].

Definition rgb_2x1_planar_stream : list byte := bytes_of [0;0] ++ rgb_2x1_planar.

(** A directory with that image under a plain name and under a name with a
    period in its stem. *)
Definition test_files : gmap string (list byte) :=
  {[ "a.ppm"%string := rgb_2x1_file; "img.v2.ppm"%string := rgb_2x1_file ]}.

(** A 2x1, 8-bit grey image as an anymap file, and a directory [images] with
    it and the colour file. *)
Definition gray_2x1_file : list byte := bytes_of [2;1;8;1] ++ bytes_of [7;9].

Definition test_directory : gmap string (list byte) :=
  {[ "images/a.ppm"%string := rgb_2x1_file; "images/g.pgm"%string := gray_2x1_file ]}.

(** * Properties *)

(** ** Arithmetic of the accessors *)

Lemma size_t_small (z : Z) : 0 ≤ z < SIZE_MODULUS → size_t z = z.
Proof. intros Hz. unfold size_t. by apply Z.mod_small. Qed.

Lemma vec_get_nat (v : list byte) (j : nat) : vec_get v (Z.of_nat j) = v !! j.
Proof.
  unfold vec_get. case_decide; [|lia]. by rewrite Nat2Z.id.
Qed.

Lemma vec_set_nat (v : list byte) (j : nat) (x : byte) :
  (j < length v)%nat → vec_set v (Z.of_nat j) x = Some (<[j := x]> v).
Proof.
  intros Hj. unfold vec_set. case_decide; [|lia]. by rewrite Nat2Z.id.
Qed.

Lemma byte_to_Z_range (b : byte) : 0 ≤ byte_to_Z b < 256.
Proof.
  unfold byte_to_Z. pose proof (Byte.to_N_bounded b). lia.
Qed.

Lemma byte_of_to_Z (b : byte) : byte_of_Z (byte_to_Z b) = b.
Proof.
  unfold byte_of_Z, byte_to_Z. by rewrite N2Z.id, Byte.of_to_N.
Qed.

Lemma byte_to_of_Z (z : Z) : 0 ≤ z < 256 → byte_to_Z (byte_of_Z z) = z.
Proof.
  intros Hz. unfold byte_of_Z, byte_to_Z.
  destruct (Byte.of_N (Z.to_N z)) as [b|] eqn:Hb.
  - apply Byte.to_of_N in Hb. lia.
  - pose proof (Byte.to_of_N_option_map (Z.to_N z)) as Hm.
    rewrite Hb in Hm. simpl in Hm.
    destruct (N.leb_spec (Z.to_N z) 255); [discriminate | lia].
Qed.

Lemma split16 (lo hi : byte) :
  byte_of_Z ((byte_to_Z lo + 256 * byte_to_Z hi) mod 256) = lo
  ∧ byte_of_Z ((byte_to_Z lo + 256 * byte_to_Z hi) / 256) = hi.
Proof.
  pose proof (byte_to_Z_range lo). pose proof (byte_to_Z_range hi).
  assert ((byte_to_Z lo + 256 * byte_to_Z hi) mod 256 = byte_to_Z lo) as ->
    by (Z.div_mod_to_equations; lia).
  assert ((byte_to_Z lo + 256 * byte_to_Z hi) / 256 = byte_to_Z hi) as ->
    by (Z.div_mod_to_equations; lia).
  by rewrite !byte_of_to_Z.
Qed.

(** Drops the wrap-around of [size_t] where the value is in range, innermost
    first. *)
Ltac size_t_simpl :=
  repeat match goal with
    | |- context [size_t ?z] =>
        lazymatch z with
        | context [size_t _] => fail
        | _ => rewrite (size_t_small z) by (unfold SIZE_MODULUS in *; lia)
        end
    end.

(** A 16-bit sample read at [s]: the two bytes it is made of. *)
Lemma get16_nat (v : list byte) (s : nat) (lo hi : byte) :
  v !! (2 * s)%nat = Some lo → v !! (2 * s + 1)%nat = Some hi →
  get16 v (Z.of_nat s) = Some (byte_to_Z lo + 256 * byte_to_Z hi).
Proof.
  intros Hlo Hhi. unfold get16.
  replace (2 * Z.of_nat s) with (Z.of_nat (2 * s)) by lia.
  replace (Z.of_nat (2 * s) + 1) with (Z.of_nat (2 * s + 1)) by lia.
  by rewrite !vec_get_nat, Hlo, Hhi.
Qed.

(** A 16-bit sample written at [j] is its two bytes written at [2j] and
    [2j+1]. *)
Lemma set16_nat (w : list byte) (j : nat) (lo hi : byte) :
  (2 * j + 1 < length w)%nat →
  set16 w (Z.of_nat j) (byte_to_Z lo + 256 * byte_to_Z hi)
  = Some (<[(2 * j + 1)%nat := hi]> (<[(2 * j)%nat := lo]> w)).
Proof.
  intros Hj. unfold set16.
  destruct (split16 lo hi) as [-> ->].
  replace (2 * Z.of_nat j) with (Z.of_nat (2 * j)) by lia.
  replace (Z.of_nat (2 * j) + 1) with (Z.of_nat (2 * j + 1)) by lia.
  rewrite vec_set_nat by lia. simpl.
  by rewrite vec_set_nat by (rewrite length_insert; lia).
Qed.

(** Distinct pixels of distinct or equal planes are at distinct offsets. *)
Lemma plane_offset_inj (n i i' k k' : nat) :
  (i < n)%nat → (i' < n)%nat → (k < 3)%nat → (k' < 3)%nat →
  (i + k * n = i' + k' * n)%nat → i = i' ∧ k = k'.
Proof.
  intros Hi Hi' Hk Hk' Heq.
  assert (k = 0 ∨ k = 1 ∨ k = 2)%nat as [-> | [-> | ->]] by lia;
  assert (k' = 0 ∨ k' = 1 ∨ k' = 2)%nat as [-> | [-> | ->]] by lia; lia.
Qed.

(** ** The loops of [triplet_to_planar] *)

(** The 8-bit loop from pixel [i] on: it ends, keeps the size of the work
    buffer, fills the three plane offsets of every pixel from [i] on and
    leaves those of the pixels before [i] as they were. *)
Lemma triplet_to_planar_loop8_spec (n : nat) (buffer : list byte) :
  length buffer = (3 * n)%nat → Z.of_nat (length buffer) < SIZE_MODULUS →
  ∀ (count i : nat) (work : list byte),
    (i + count = n)%nat → length work = length buffer →
    ∃ out, triplet_to_planar_loop8 count (Z.of_nat i) (Z.of_nat n) buffer work = Some out
      ∧ length out = length buffer
      ∧ (∀ i' k, (i ≤ i' < n)%nat → (k < 3)%nat →
           out !! (i' + k * n)%nat = buffer !! (3 * i' + k)%nat)
      ∧ (∀ i' k, (i' < i)%nat → (k < 3)%nat →
           out !! (i' + k * n)%nat = work !! (i' + k * n)%nat).
Proof.
  intros Hlen Hmax. unfold SIZE_MODULUS in Hmax.
  induction count as [|count IH]; intros i work Hi Hwork.
  - exists work. simpl. split; [done|]. split; [done|]. split; [intros; lia | done].
  - cbn [triplet_to_planar_loop8].
    size_t_simpl.
    replace (Z.of_nat i * 3 + 0) with (Z.of_nat (3 * i + 0)) by lia.
    replace (Z.of_nat i * 3 + 1) with (Z.of_nat (3 * i + 1)) by lia.
    replace (Z.of_nat i * 3 + 2) with (Z.of_nat (3 * i + 2)) by lia.
    replace (Z.of_nat i + 1 * Z.of_nat n) with (Z.of_nat (i + 1 * n)) by lia.
    replace (Z.of_nat i + 2 * Z.of_nat n) with (Z.of_nat (i + 2 * n)) by lia.
    replace (Z.of_nat i + 1) with (Z.of_nat (S i)) by lia.
    rewrite !vec_get_nat.
    destruct (lookup_lt_is_Some_2 buffer (3 * i + 0)%nat) as [s0 Hs0]; [lia|].
    destruct (lookup_lt_is_Some_2 buffer (3 * i + 1)%nat) as [s1 Hs1]; [lia|].
    destruct (lookup_lt_is_Some_2 buffer (3 * i + 2)%nat) as [s2 Hs2]; [lia|].
    rewrite Hs0. cbn [mbind option_bind]. rewrite vec_set_nat by lia.
    cbn [mbind option_bind]. rewrite Hs1. cbn [mbind option_bind].
    rewrite vec_set_nat by (rewrite !length_insert; lia).
    cbn [mbind option_bind]. rewrite Hs2. cbn [mbind option_bind].
    rewrite vec_set_nat by (rewrite !length_insert; lia).
    cbn [mbind option_bind].
    set (w2 := <[(i + 2 * n)%nat := s2]> (<[(i + 1 * n)%nat := s1]> (<[i := s0]> work))).
    destruct (IH (S i) w2) as (out & Hout & Hlen' & Hnew & Hold);
      [lia | by unfold w2; rewrite !length_insert |].
    exists out. split; [done|]. split; [done|]. split.
    + intros i' k Hi' Hk. destruct (decide (i' = i)) as [->|Hne].
      * rewrite Hold by lia. unfold w2.
        assert (k = 0 ∨ k = 1 ∨ k = 2)%nat as [-> | [-> | ->]] by lia.
        -- rewrite !list_lookup_insert_ne by lia.
           replace (i + 0 * n)%nat with i by lia.
           by rewrite list_lookup_insert_eq by lia.
        -- rewrite list_lookup_insert_ne by lia.
           by rewrite list_lookup_insert_eq by (rewrite length_insert; lia).
        -- by rewrite list_lookup_insert_eq by (rewrite !length_insert; lia).
      * apply Hnew; lia.
    + intros i' k Hi' Hk. rewrite Hold by lia. unfold w2.
      assert (k = 0 ∨ k = 1 ∨ k = 2)%nat as [-> | [-> | ->]] by lia;
        by rewrite !list_lookup_insert_ne by lia.
Qed.

(** The 16-bit loop, byte by byte: byte [b] of the sample of pixel [i'] in
    plane [k] is byte [b] of sample [3i'+k] of the source. *)
Lemma triplet_to_planar_loop16_spec (n : nat) (buffer : list byte) :
  length buffer = (2 * (3 * n))%nat → Z.of_nat (length buffer) < SIZE_MODULUS →
  ∀ (count i : nat) (work : list byte),
    (i + count = n)%nat → length work = length buffer →
    ∃ out, triplet_to_planar_loop16 count (Z.of_nat i) (Z.of_nat n) buffer work = Some out
      ∧ length out = length buffer
      ∧ (∀ i' k b, (i ≤ i' < n)%nat → (k < 3)%nat → (b < 2)%nat →
           out !! (2 * (i' + k * n) + b)%nat = buffer !! (2 * (3 * i' + k) + b)%nat)
      ∧ (∀ i' k b, (i' < i)%nat → (k < 3)%nat → (b < 2)%nat →
           out !! (2 * (i' + k * n) + b)%nat = work !! (2 * (i' + k * n) + b)%nat).
Proof.
  intros Hlen Hmax.
  induction count as [|count IH]; intros i work Hi Hwork.
  - exists work. simpl. split; [done|]. split; [done|]. split; [intros; lia | done].
  - cbn [triplet_to_planar_loop16].
    size_t_simpl.
    replace (Z.of_nat i * 3 + 0) with (Z.of_nat (3 * i + 0)) by lia.
    replace (Z.of_nat i * 3 + 1) with (Z.of_nat (3 * i + 1)) by lia.
    replace (Z.of_nat i * 3 + 2) with (Z.of_nat (3 * i + 2)) by lia.
    replace (Z.of_nat i + 1 * Z.of_nat n) with (Z.of_nat (i + 1 * n)) by lia.
    replace (Z.of_nat i + 2 * Z.of_nat n) with (Z.of_nat (i + 2 * n)) by lia.
    replace (Z.of_nat i + 1) with (Z.of_nat (S i)) by lia.
    destruct (lookup_lt_is_Some_2 buffer (2 * (3 * i + 0))%nat) as [l0 Hl0]; [lia|].
    destruct (lookup_lt_is_Some_2 buffer (2 * (3 * i + 0) + 1)%nat) as [h0 Hh0]; [lia|].
    destruct (lookup_lt_is_Some_2 buffer (2 * (3 * i + 1))%nat) as [l1 Hl1]; [lia|].
    destruct (lookup_lt_is_Some_2 buffer (2 * (3 * i + 1) + 1)%nat) as [h1 Hh1]; [lia|].
    destruct (lookup_lt_is_Some_2 buffer (2 * (3 * i + 2))%nat) as [l2 Hl2]; [lia|].
    destruct (lookup_lt_is_Some_2 buffer (2 * (3 * i + 2) + 1)%nat) as [h2 Hh2]; [lia|].
    rewrite (get16_nat _ _ _ _ Hl0 Hh0), (get16_nat _ _ _ _ Hl1 Hh1),
      (get16_nat _ _ _ _ Hl2 Hh2).
    cbn [mbind option_bind]. rewrite set16_nat by lia.
    cbn [mbind option_bind]. rewrite set16_nat by (rewrite !length_insert; lia).
    cbn [mbind option_bind]. rewrite set16_nat by (rewrite !length_insert; lia).
    cbn [mbind option_bind].
    set (w2 := <[(2 * (i + 2 * n) + 1)%nat := h2]> (<[(2 * (i + 2 * n))%nat := l2]>
               (<[(2 * (i + 1 * n) + 1)%nat := h1]> (<[(2 * (i + 1 * n))%nat := l1]>
               (<[(2 * i + 1)%nat := h0]> (<[(2 * i)%nat := l0]> work)))))).
    destruct (IH (S i) w2) as (out & Hout & Hlen' & Hnew & Hold);
      [lia | by unfold w2; rewrite !length_insert |].
    exists out. split; [done|]. split; [done|]. split.
    + intros i' k b Hi' Hk Hb. destruct (decide (i' = i)) as [->|Hne].
      * rewrite Hold by lia. unfold w2.
        assert (k = 0 ∨ k = 1 ∨ k = 2)%nat as [-> | [-> | ->]] by lia;
        assert (b = 0 ∨ b = 1)%nat as [-> | ->] by lia;
          repeat (rewrite list_lookup_insert_ne by lia);
          match goal with
          | |- <[?j := _]> _ !! ?p = _ => replace p with j by lia
          end;
          rewrite list_lookup_insert_eq by (rewrite ?length_insert; lia);
          match goal with
          | Hx : buffer !! ?q' = Some ?x |- Some ?x = buffer !! ?q =>
              replace q with q' by lia; by rewrite Hx
          end.
      * apply Hnew; lia.
    + intros i' k b Hi' Hk Hb. rewrite Hold by lia. unfold w2.
      assert (k = 0 ∨ k = 1 ∨ k = 2)%nat as [-> | [-> | ->]] by lia;
        by rewrite !list_lookup_insert_ne by lia.
Qed.

(** ** The transform on a well-formed buffer *)

(** [triplet_to_planar] on a buffer of [3 * width * height] samples: it
    ends without an access out of bounds, the result has the size of the
    buffer, and every byte of it is the byte of the source that the loop
    copies there. *)
Lemma triplet_to_planar_bytes (buffer : list byte) (width height bits_per_sample : Z) :
  0 ≤ width → 0 ≤ height →
  Z.of_nat (length buffer)
    = width * height * 3 * Z.of_nat (bytes_per_sample bits_per_sample) →
  Z.of_nat (length buffer) < SIZE_MODULUS →
  ∃ out, triplet_to_planar buffer width height bits_per_sample = Some out
    ∧ length out = length buffer
    ∧ ∀ i k b, (i < Z.to_nat (width * height))%nat → (k < 3)%nat →
        (b < bytes_per_sample bits_per_sample)%nat →
        out !! (bytes_per_sample bits_per_sample * (i + k * Z.to_nat (width * height)) + b)%nat
        = buffer !! (bytes_per_sample bits_per_sample * (3 * i + k) + b)%nat.
Proof.
  intros Hw Hh Hlen Hmax.
  assert (0 ≤ width * height) as Hn by lia.
  assert (width * height < SIZE_MODULUS) as Hsmall.
  { unfold bytes_per_sample in Hlen. case_decide; lia. }
  unfold triplet_to_planar. rewrite size_t_small by lia.
  set (n := Z.to_nat (width * height)).
  replace (width * height) with (Z.of_nat n) in * by lia.
  unfold bytes_per_sample in *. case_decide.
  - destruct (triplet_to_planar_loop16_spec n buffer) with (count := n) (i := 0%nat)
      (work := replicate (length buffer) Byte.x00) as (out & Hout & Hlen' & Hnew & _);
      [lia | done | lia | by rewrite length_replicate |].
    exists out. split; [done|]. split; [done|].
    intros i k b Hi Hk Hb. apply Hnew; lia.
  - destruct (triplet_to_planar_loop8_spec n buffer) with (count := n) (i := 0%nat)
      (work := replicate (length buffer) Byte.x00) as (out & Hout & Hlen' & Hnew & _);
      [lia | done | lia | by rewrite length_replicate |].
    exists out. split; [done|]. split; [done|].
    intros i k b Hi Hk Hb.
    replace (1 * (i + k * n) + b)%nat with (i + k * n)%nat by lia.
    replace (1 * (3 * i + k) + b)%nat with (3 * i + k)%nat by lia.
    apply Hnew; lia.
Qed.

Lemma sample_at_lookup (unit : nat) (v : list byte) (j p : nat) :
  sample_at unit v j !! p = if decide (p < unit)%nat then v !! (unit * j + p)%nat else None.
Proof.
  unfold sample_at. rewrite lookup_take. case_decide; [|done].
  rewrite lookup_drop. f_equal. lia.
Qed.

(** The three samples of pixel [i] of a sample-interleaved buffer are one
    run of it. *)
Lemma sample_at_triplet (unit : nat) (v : list byte) (i : nat) :
  sample_at unit v (3 * i) ++ sample_at unit v (3 * i + 1) ++ sample_at unit v (3 * i + 2)
  = take (3 * unit) (drop (i * (3 * unit)) v).
Proof.
  unfold sample_at.
  replace ((3 * i + 1) * unit)%nat with (3 * i * unit + unit)%nat by lia.
  replace ((3 * i + 2) * unit)%nat with (3 * i * unit + unit + unit)%nat by lia.
  rewrite <- !drop_drop.
  rewrite (take_take_drop (drop unit (drop (3 * i * unit) v))).
  rewrite take_take_drop. f_equal; [lia | f_equal; lia].
Qed.

Lemma get16_lookup (v : list byte) (j : nat) :
  get16 v (Z.of_nat j)
  = (lo ← v !! (2 * j)%nat; hi ← v !! (2 * j + 1)%nat;
     Some (byte_to_Z lo + 256 * byte_to_Z hi)).
Proof.
  unfold get16.
  replace (2 * Z.of_nat j) with (Z.of_nat (2 * j)) by lia.
  replace (Z.of_nat (2 * j) + 1) with (Z.of_nat (2 * j + 1)) by lia.
  by rewrite !vec_get_nat.
Qed.

(** A sample, from the bytes it is made of. *)
Lemma sample_get_lookup (bits_per_sample : Z) (v : list byte) (j : nat) :
  sample_get bits_per_sample v (Z.of_nat j)
  = if decide (bits_per_sample > 8)
    then (lo ← v !! (2 * j)%nat; hi ← v !! (2 * j + 1)%nat;
          Some (byte_to_Z lo + 256 * byte_to_Z hi))
    else byte_to_Z <$> v !! j.
Proof.
  unfold sample_get. case_decide; [apply get16_lookup | by rewrite vec_get_nat].
Qed.

(** C2: on a sample-interleaved buffer of [width * height] pixels of three
    components, [triplet_to_planar] ends with a buffer of the same size in
    which, for every pixel [i] below [width * height] and every [k] in
    0, 1, 2, the sample at offset [i + k * width * height] is the sample of the
    source at offset [i * 3 + k]; offsets count samples of two bytes when
    [bits_per_sample] exceeds 8 and of one byte otherwise. *)
Theorem triplet_to_planar_samples (buffer : list byte) (width height bits_per_sample : Z) :
  0 ≤ width → 0 ≤ height →
  Z.of_nat (length buffer)
    = width * height * 3 * Z.of_nat (bytes_per_sample bits_per_sample) →
  Z.of_nat (length buffer) < SIZE_MODULUS →
  ∃ out, triplet_to_planar buffer width height bits_per_sample = Some out
    ∧ length out = length buffer
    ∧ ∀ i k, 0 ≤ i < width * height → 0 ≤ k < 3 →
        is_Some (sample_get bits_per_sample buffer (i * 3 + k))
        ∧ sample_get bits_per_sample out (i + k * (width * height))
          = sample_get bits_per_sample buffer (i * 3 + k).
Proof.
  intros Hw Hh Hlen Hmax.
  destruct (triplet_to_planar_bytes buffer width height bits_per_sample)
    as (out & Hout & Hlen' & Hbytes); [done..|].
  exists out. split; [done|]. split; [done|].
  intros i k Hi Hk.
  set (n := Z.to_nat (width * height)) in *.
  replace (width * height) with (Z.of_nat n) in * by lia.
  replace i with (Z.of_nat (Z.to_nat i)) by lia.
  replace k with (Z.of_nat (Z.to_nat k)) by lia.
  set (i' := Z.to_nat i). set (k' := Z.to_nat k).
  assert (i' < n)%nat as Hi' by lia. assert (k' < 3)%nat as Hk' by lia.
  replace (Z.of_nat i' * 3 + Z.of_nat k') with (Z.of_nat (3 * i' + k')) by lia.
  replace (Z.of_nat i' + Z.of_nat k' * Z.of_nat n) with (Z.of_nat (i' + k' * n)) by lia.
  rewrite !sample_get_lookup.
  unfold bytes_per_sample in *. case_decide.
  - pose proof (Hbytes i' k' 0%nat Hi' Hk' ltac:(lia)) as H0.
    pose proof (Hbytes i' k' 1%nat Hi' Hk' ltac:(lia)) as H1.
    replace (2 * (i' + k' * n) + 0)%nat with (2 * (i' + k' * n))%nat in H0 by lia.
    replace (2 * (3 * i' + k') + 0)%nat with (2 * (3 * i' + k'))%nat in H0 by lia.
    rewrite H0, H1. split; [|done].
    destruct (lookup_lt_is_Some_2 buffer (2 * (3 * i' + k'))%nat) as [lo ->]; [lia|].
    destruct (lookup_lt_is_Some_2 buffer (2 * (3 * i' + k') + 1)%nat) as [hi ->]; [lia|].
    by eexists.
  - pose proof (Hbytes i' k' 0%nat Hi' Hk' ltac:(lia)) as H0.
    replace (1 * (i' + k' * n) + 0)%nat with (i' + k' * n)%nat in H0 by lia.
    replace (1 * (3 * i' + k') + 0)%nat with (3 * i' + k')%nat in H0 by lia.
    rewrite H0. split; [|done].
    destruct (lookup_lt_is_Some_2 buffer (3 * i' + k')%nat) as [s ->]; [lia|].
    by eexists.
Qed.

(** The inverse regrouping of the first [m] pixels of the transformed
    buffer gives back the first [m] pixels of the source. *)
Lemma planar_to_triplet_prefix (buffer out : list byte) (unit n : nat) :
  (∀ i k b, (i < n)%nat → (k < 3)%nat → (b < unit)%nat →
     out !! (unit * (i + k * n) + b)%nat = buffer !! (unit * (3 * i + k) + b)%nat) →
  ∀ m, (m ≤ n)%nat →
    mjoin ((λ i, sample_at unit out i ++ sample_at unit out (i + n)
                 ++ sample_at unit out (i + 2 * n)) <$> seq 0 m)
    = take (m * (3 * unit)) buffer.
Proof.
  intros Hbytes. induction m as [|m IH]; intros Hm; [done|].
  rewrite seq_S, fmap_app, join_app, IH by lia.
  cbn [fmap list_fmap mjoin list_join Nat.add]. rewrite app_nil_r.
  assert (∀ k, (k < 3)%nat → sample_at unit out (m + k * n) = sample_at unit buffer (3 * m + k))
    as Hsample.
  { intros k Hk. apply list_eq. intros p. rewrite !sample_at_lookup.
    case_decide; [|done]. apply Hbytes; lia. }
  pose proof (Hsample 0%nat ltac:(lia)) as H0.
  pose proof (Hsample 1%nat ltac:(lia)) as H1.
  pose proof (Hsample 2%nat ltac:(lia)) as H2.
  replace (m + 0 * n)%nat with m in H0 by lia.
  replace (m + 1 * n)%nat with (m + n)%nat in H1 by lia.
  replace (3 * m + 0)%nat with (3 * m)%nat in H0 by lia.
  rewrite H0, H1, H2, sample_at_triplet, take_take_drop.
  f_equal. lia.
Qed.

(** C3: on a well-formed 3-component sample-interleaved buffer (its length
    is [width * height * 3] samples of one byte, or of two when the bit depth
    exceeds 8, which covers the depths 8 and 16), [triplet_to_planar] ends,
    keeps the length of the buffer, and regrouping its result back to
    sample-interleaved order gives the buffer it started from. *)
Theorem triplet_to_planar_invertible (buffer : list byte) (width height bits_per_sample : Z) :
  0 ≤ width → 0 ≤ height →
  Z.of_nat (length buffer)
    = width * height * 3 * Z.of_nat (bytes_per_sample bits_per_sample) →
  Z.of_nat (length buffer) < SIZE_MODULUS →
  ∃ out, triplet_to_planar buffer width height bits_per_sample = Some out
    ∧ length out = length buffer
    ∧ planar_to_triplet out width height bits_per_sample = buffer.
Proof.
  intros Hw Hh Hlen Hmax.
  destruct (triplet_to_planar_bytes buffer width height bits_per_sample)
    as (out & Hout & Hlen' & Hbytes); [done..|].
  exists out. split; [done|]. split; [done|].
  unfold planar_to_triplet.
  rewrite (planar_to_triplet_prefix buffer out) by (done || lia).
  apply take_ge. lia.
Qed.

(** ** The round-trip validator *)

Section Validator.
Context {ext : Externals}.

(** The comparison loop from index [i] on: it touches no file, returns
    whether the two buffers agree from [i] on, and its trace is made of
    comparisons, followed by the value-mismatch line when it fails. *)
Lemma compare_loop_spec (decoded original : list byte) (fs : gmap string (list byte)) :
  length decoded = length original → Z.of_nat (length original) < SIZE_MODULUS →
  ∀ (count i : nat), (i + count = length original)%nat →
    ∃ compared : list Z,
      compare_loop count (Z.of_nat i) decoded original fs
      = Run (Ok (bool_decide (drop i decoded = drop i original))) fs
          ((EvCompare <$> compared)
           ++ (if bool_decide (drop i decoded = drop i original) then []
               else [value_mismatch])).
Proof.
  intros Hlen Hmax. induction count as [|count IH]; intros i Hi.
  - exists []. cbn. rewrite !drop_ge by lia. by rewrite bool_decide_eq_true_2 by done.
  - cbn [compare_loop].
    destruct (lookup_lt_is_Some_2 decoded i) as [d Hd]; [lia|].
    destruct (lookup_lt_is_Some_2 original i) as [o Ho]; [lia|].
    rewrite (drop_S _ _ _ Hd), (drop_S _ _ _ Ho).
    unfold bind. cbn [emit run_outcome run_files run_trace].
    rewrite vec_get_nat, Hd. cbn [defined ret run_outcome run_files run_trace].
    rewrite vec_get_nat, Ho. cbn [defined ret run_outcome run_files run_trace].
    destruct (decide (d ≠ o)) as [Hdo|Hdo].
    + exists [Z.of_nat i]. cbn. by rewrite bool_decide_eq_false_2 by congruence.
    + apply dec_stable in Hdo. subst o.
      replace (size_t (Z.of_nat i + 1)) with (Z.of_nat (S i))
        by (rewrite size_t_small; unfold SIZE_MODULUS in *; lia).
      destruct (IH (S i)) as (compared & ->); [lia|].
      assert (bool_decide (d :: drop (S i) decoded = d :: drop (S i) original)
              = bool_decide (drop (S i) decoded = drop (S i) original)) as ->.
      { apply bool_decide_ext. split; [by intros [=] | by intros ->]. }
      by exists (Z.of_nat i :: compared).
Qed.

Lemma list_neq_lookup (l k : list byte) :
  length l = length k → l ≠ k → ∃ i, l !! i ≠ k !! i.
Proof.
  revert k. induction l as [|x l IH]; intros [|y k] Hlen Hne; try done.
  destruct (decide (x = y)) as [->|Hxy].
  - destruct (IH k) as [i Hi]; [by injection Hlen | congruence |]. by exists (S i).
  - exists 0%nat. simpl. congruence.
Qed.

(** C4: when the decoded buffer and the original differ in size,
    [test_by_decoding] fails with the size-mismatch line, and it does so
    without having compared any byte: its whole trace is the entry, the
    timed decode and that line. *)
Theorem test_by_decoding_size_mismatch (encoded_source original_source : list byte)
    (fs : gmap string (list byte)) (dec : decoder) (size : Z) (decoded : list byte) :
  decoder_new encoded_source = inr dec →
  destination_size dec = inr size →
  decode dec (replicate (Z.to_nat size) Byte.x00) = inr decoded →
  length decoded ≠ length original_source →
  test_by_decoding encoded_source original_source fs
  = Run (Ok false) fs
      [EvTestByDecoding encoded_source original_source; EvClock;
       EvDecode encoded_source; EvClock; size_mismatch]
  ∧ ∀ i, EvCompare i ∉ run_trace (test_by_decoding encoded_source original_source fs).
Proof.
  intros Hnew Hsize Hdecode Hlen.
  assert (test_by_decoding encoded_source original_source fs
          = Run (Ok false) fs
              [EvTestByDecoding encoded_source original_source; EvClock;
               EvDecode encoded_source; EvClock; size_mismatch]) as ->.
  { unfold test_by_decoding, bind. cbn. rewrite Hnew. cbn. rewrite Hsize. cbn.
    rewrite Hdecode. cbn. by rewrite decide_True by done. }
  split; [done|]. intros i Hin. cbn in Hin.
  repeat (apply elem_of_cons in Hin as [Hin|Hin]; [discriminate|]).
  by apply elem_of_nil in Hin.
Qed.

(** C5: with sizes equal, a stream that reports lossless mode passes
    exactly when the decoded buffer equals the reference, byte for byte, and
    a failure ends in the value-mismatch line; a stream that reports
    near-lossless mode passes without a single comparison. *)
Theorem test_by_decoding_equal_sizes (encoded_source original_source : list byte)
    (fs : gmap string (list byte)) (dec : decoder) (size : Z) (decoded : list byte) :
  decoder_new encoded_source = inr dec →
  destination_size dec = inr size →
  decode dec (replicate (Z.to_nat size) Byte.x00) = inr decoded →
  length decoded = length original_source →
  Z.of_nat (length original_source) < SIZE_MODULUS →
  let r := test_by_decoding encoded_source original_source fs in
  let entry := [EvTestByDecoding encoded_source original_source; EvClock;
                EvDecode encoded_source; EvClock] in
  if decide (near_lossless dec = 0)
  then
    run_outcome r = Ok (bool_decide (decoded = original_source))
    ∧ (run_outcome r = Ok true ↔ ∀ i, decoded !! i = original_source !! i)
    ∧ (run_outcome r = Ok false ↔ ∃ i, decoded !! i ≠ original_source !! i)
    ∧ ∃ compared,
        run_trace r = entry ++ (EvCompare <$> compared)
          ++ (if bool_decide (decoded = original_source) then [] else [value_mismatch])
  else
    r = Run (Ok true) fs entry ∧ ∀ i, EvCompare i ∉ run_trace r.
Proof.
  intros Hnew Hsize Hdecode Hlen Hmax r entry.
  assert (r = if decide (near_lossless dec = 0)
              then let c := compare_loop (length original_source) 0 decoded original_source fs in
                   Run (run_outcome c) (run_files c) (entry ++ run_trace c)
              else Run (Ok true) fs entry) as Hr.
  { unfold r, test_by_decoding, bind. cbn. rewrite Hnew. cbn. rewrite Hsize. cbn.
    rewrite Hdecode. cbn. rewrite decide_False by (intros Hne; by apply Hne).
    by case_decide. }
  case_decide as Hnear.
  - destruct (compare_loop_spec decoded original_source fs Hlen Hmax
                (length original_source) 0%nat) as (compared & Hc); [lia|].
    change (Z.of_nat 0) with 0 in Hc. rewrite !drop_0 in Hc.
    rewrite Hr. cbn zeta. rewrite Hc. cbn [run_outcome run_files run_trace].
    split; [done|]. split; [|split].
    + case_bool_decide as Heq.
      * split; [by intros _ i; subst | done].
      * split; [done|]. intros Hall. exfalso. by apply Heq, list_eq.
    + case_bool_decide as Heq.
      * split; [done|]. intros [i Hi]. by subst.
      * split; [|done]. intros _. by apply list_neq_lookup.
    + by exists compared.
  - rewrite Hr. split; [done|]. intros i Hin. cbn in Hin.
    repeat (apply elem_of_cons in Hin as [Hin|Hin]; [discriminate|]).
    by apply elem_of_nil in Hin.
Qed.

End Validator.

(** ** The reference loader *)

Section Loader.
Context {ext : Externals}.

(** The run of the loader on a file that the anymap reader accepts. *)
Lemma read_anymap_reference_file_loaded (filename : string) (mode : interleave_mode)
    (fs : gmap string (list byte)) (contents : list byte) (loaded : portable_anymap_file) :
  fs !! filename = Some contents →
  anymap_read contents = inr loaded →
  read_anymap_reference_file filename mode fs
  = if decide (mode = none ∧ component_count loaded = 3)
    then match triplet_to_planar (image_data loaded) (size_t (width loaded))
                 (size_t (height loaded)) (bits_per_sample loaded) with
         | Some data => Run (Ok (with_image_data loaded data)) fs [EvOpen filename]
         | None => Run Undefined fs [EvOpen filename]
         end
    else Run (Ok loaded) fs [EvOpen filename].
Proof.
  intros Hfile Hread.
  unfold read_anymap_reference_file, open_anymap, bind. cbn.
  rewrite Hfile, Hread. cbn. case_decide; [|done].
  by destruct (triplet_to_planar _ _ _ _).
Qed.

(** C7: the loader applies [triplet_to_planar] when the mode is [none]
    and the file has three components, and only then.  In that case the
    [image_data] of the file it returns is the planar buffer that
    [triplet_to_planar] makes of the samples read, and its width, height,
    bits per sample and component count are those read; where
    [triplet_to_planar] has undefined behaviour, so has the loader.  In every
    other mode, and for every file of another component count, a
    single-component one in particular, it returns the file as read, samples
    included. *)
Theorem read_anymap_reference_file_transform (filename : string) (mode : interleave_mode)
    (fs : gmap string (list byte)) (contents : list byte) (loaded : portable_anymap_file) :
  fs !! filename = Some contents →
  anymap_read contents = inr loaded →
  let r := read_anymap_reference_file filename mode fs in
  let planar := triplet_to_planar (image_data loaded) (size_t (width loaded))
                  (size_t (height loaded)) (bits_per_sample loaded) in
  (mode = none ∧ component_count loaded = 3 →
     (∀ data, planar = Some data →
        ∃ reference_file,
          run_outcome r = Ok reference_file
          ∧ image_data reference_file = data
          ∧ width reference_file = width loaded
          ∧ height reference_file = height loaded
          ∧ bits_per_sample reference_file = bits_per_sample loaded
          ∧ component_count reference_file = component_count loaded)
     ∧ (planar = None → run_outcome r = Undefined))
  ∧ (mode ≠ none ∨ component_count loaded ≠ 3 →
       run_outcome r = Ok loaded
       ∧ ∀ reference_file, run_outcome r = Ok reference_file →
           image_data reference_file = image_data loaded)
  ∧ (component_count loaded = 1 →
       run_outcome r = Ok loaded
       ∧ ∀ reference_file, run_outcome r = Ok reference_file →
           image_data reference_file = image_data loaded).
Proof.
  intros Hfile Hread r planar. unfold r, planar.
  rewrite (read_anymap_reference_file_loaded _ _ _ _ _ Hfile Hread).
  split; [|split].
  - intros Hyes. rewrite decide_True by done. split.
    + intros data ->. by exists (with_image_data loaded data).
    + by intros ->.
  - intros Hno. rewrite decide_False; [|intros [? ?]; by destruct Hno].
    split; [done|]. by intros reference_file [= <-].
  - intros Hone. rewrite decide_False; [|intros [_ ?]; lia].
    split; [done|]. by intros reference_file [= <-].
Qed.

End Loader.

(** ** One mode of one file *)

Section SingleMode.
Context {ext : Externals}.

Lemma bind_run {A B} (m : M A) (k : A → M B) (fs fs1 : gmap string (list byte))
    (o : outcome A) (tr1 : list event) :
  m fs = Run o fs1 tr1 →
  bind m k fs = match o with
                | Ok a => prepend tr1 (k a fs1)
                | Throw what => Run (Throw what) fs1 tr1
                | Undefined => Run Undefined fs1 tr1
                end.
Proof. intros Hm. unfold bind. rewrite Hm. by destruct o. Qed.

Lemma prepend_nil {A} (r : run A) : prepend [] r = r.
Proof. by destruct r. Qed.

Lemma bind_ret {A B} (a : A) (k : A → M B) (fs : gmap string (list byte)) :
  bind (ret a) k fs = k a fs.
Proof. erewrite bind_run by reflexivity. apply prepend_nil. Qed.

Lemma bind_lift_inr {A B} (a : A) (k : A → M B) (fs : gmap string (list byte)) :
  bind (lift (inr a)) k fs = k a fs.
Proof. apply bind_ret. Qed.

Lemma bind_emit {B} (e : event) (k : unit → M B) (fs : gmap string (list byte)) :
  bind (emit e) k fs = prepend [e] (k tt fs).
Proof. by erewrite bind_run by reflexivity. Qed.

Lemma encoded_modes_app (t1 t2 : list event) :
  encoded_modes (t1 ++ t2) = encoded_modes t1 ++ encoded_modes t2.
Proof. apply omap_app. Qed.

Lemma validated_against_app (t1 t2 : list event) :
  validated_against (t1 ++ t2) = validated_against t1 ++ validated_against t2.
Proof. apply omap_app. Qed.

(** The comparison loop neither encodes nor enters the validator, and it
    touches no file. *)
Lemma compare_loop_trace (count : nat) (i : Z) (decoded original : list byte)
    (fs : gmap string (list byte)) :
  encoded_modes (run_trace (compare_loop count i decoded original fs)) = []
  ∧ validated_against (run_trace (compare_loop count i decoded original fs)) = []
  ∧ run_files (compare_loop count i decoded original fs) = fs.
Proof.
  revert i. induction count as [|count IH]; intros i; [done|].
  cbn [compare_loop]. unfold bind. cbn [emit run_outcome run_files run_trace].
  destruct (vec_get decoded i) as [d|]; [|done]. cbn.
  destruct (vec_get original i) as [o|]; [|done]. cbn.
  destruct (decide (d ≠ o)); [done|].
  apply IH.
Qed.

(** [test_by_decoding] does not encode, the one reference buffer in its
    trace is the one it was called with, and it touches no file. *)
Lemma test_by_decoding_trace (encoded_source original_source : list byte)
    (fs : gmap string (list byte)) :
  encoded_modes (run_trace (test_by_decoding encoded_source original_source fs)) = []
  ∧ validated_against (run_trace (test_by_decoding encoded_source original_source fs))
    = [original_source]
  ∧ run_files (test_by_decoding encoded_source original_source fs) = fs.
Proof.
  unfold encoded_modes, validated_against, test_by_decoding, bind. cbn.
  destruct (decoder_new encoded_source) as [|dec]; [done|]. cbn.
  destruct (destination_size dec) as [|size]; [done|]. cbn.
  destruct (decode dec _) as [|decoded]; [done|]. cbn.
  case_decide; [done|]. case_decide; [|done].
  destruct (compare_loop_trace (length original_source) 0 decoded original_source fs)
    as (He & Hv & Hf).
  unfold encoded_modes, validated_against in He, Hv.
  by rewrite He, Hv, Hf.
Qed.

(** The loader touches no file and its trace is the opening of the file. *)
Lemma read_anymap_reference_file_run (filename : string) (mode : interleave_mode)
    (fs : gmap string (list byte)) :
  ∃ o, read_anymap_reference_file filename mode fs = Run o fs [EvOpen filename].
Proof.
  unfold read_anymap_reference_file, open_anymap, bind. cbn.
  destruct (fs !! filename) as [contents|]; [|by eexists].
  destruct (anymap_read contents) as [|loaded]; [by eexists|]. cbn.
  case_decide; [|by eexists].
  destruct (triplet_to_planar _ _ _ _); by eexists.
Qed.

(** One run of [check_file].  It hands the image to the encoder once, in
    the requested mode, unless it ends before that without a result.  It
    enters the validator at most once, and once when it ends with a result,
    with the image data of the reference file as the loader returned it.
    When it ends with a result, the files are those it started on with the
    output file replaced by the bitstream it wrote. *)
Lemma check_file_trace (source_filename : string) (mode : interleave_mode) (color : bool)
    (fs : gmap string (list byte)) :
  let r := check_file source_filename mode color fs in
  (encoded_modes (run_trace r) = [mode]
   ∨ encoded_modes (run_trace r) = [] ∧ ∀ b, run_outcome r ≠ Ok b)
  ∧ (validated_against (run_trace r) = [] ∧ (∀ b, run_outcome r ≠ Ok b)
     ∨ ∃ reference_file,
         run_outcome (read_anymap_reference_file source_filename mode fs) = Ok reference_file
         ∧ validated_against (run_trace r) = [image_data reference_file])
  ∧ (∀ b, run_outcome r = Ok b →
       ∃ data, run_files r = <[generate_output_filename source_filename mode := data]> fs
         ∧ EvWrite (generate_output_filename source_filename mode) data ∈ run_trace r).
Proof.
  cbn zeta. unfold check_file.
  destruct (read_anymap_reference_file_run source_filename mode fs) as [o Hread].
  rewrite !(bind_run _ _ _ _ _ _ Hread), Hread.
  destruct o as [reference_file| |]; [|split; [by right | split; [by left | done]]..].
  destruct (encoder_configure _ _) as [|enc]; [split; [by right | split; [by left | done]]|].
  rewrite !bind_lift_inr.
  destruct (estimated_destination_size enc) as [|estimate];
    [split; [by right | split; [by left | done]]|].
  rewrite !bind_lift_inr, !bind_emit.
  destruct (encode enc _ _) as [|[data encoded_size]];
    [split; [by left | split; [by left | done]]|].
  rewrite !bind_lift_inr. cbn beta iota. rewrite !bind_emit.
  unfold write_file.
  destruct (writable _); [|split; [by left | split; [by left | done]]].
  erewrite bind_run by reflexivity. cbn beta iota.
  match goal with
  | |- context [bind (test_by_decoding ?e ?o) _ ?f] =>
      destruct (test_by_decoding_trace e o f) as (He & Hv & Hf);
      destruct (test_by_decoding e o f) as [[result| |] fs' tr] eqn:Htest
  end; cbn [run_trace run_files] in He, Hv, Hf; subst fs';
    erewrite bind_run by exact Htest;
    cbn [prepend run_trace run_outcome run_files bind emit ret];
    (split; [left | split; [right; exists reference_file; split; [done|] | ]]);
    rewrite ?encoded_modes_app, ?validated_against_app, ?He, ?Hv;
    try reflexivity; try done.
  intros b _. eexists. split; [reflexivity|].
  rewrite !elem_of_app, !list_elem_of_singleton. tauto.
Qed.

End SingleMode.

(** ** The ground truth of the validation *)

Section GroundTruth.
Context {ext : Externals}.

(** C1, as the code has it: the reference buffer that [check_file] hands
    to [test_by_decoding] is the image data of the reference file as the
    loader returned it, that is the planar buffer that [triplet_to_planar]
    made of the loaded one when the mode is [none] and the file has three
    components, and the loaded buffer itself in every other case.  Every
    entry into the validator is with that buffer, and a check that ends with
    a result has entered it once. *)
Theorem check_file_ground_truth (source_filename : string) (mode : interleave_mode)
    (color : bool) (fs : gmap string (list byte)) (contents : list byte)
    (loaded : portable_anymap_file) :
  fs !! source_filename = Some contents →
  anymap_read contents = inr loaded →
  let r := check_file source_filename mode color fs in
  let ground_truth :=
    if decide (mode = none ∧ component_count loaded = 3)
    then triplet_to_planar (image_data loaded) (size_t (width loaded))
           (size_t (height loaded)) (bits_per_sample loaded)
    else Some (image_data loaded) in
  (∀ encoded_source original_source,
     EvTestByDecoding encoded_source original_source ∈ run_trace r →
     ground_truth = Some original_source)
  ∧ (∀ b, run_outcome r = Ok b →
       ∃ original_source,
         ground_truth = Some original_source
         ∧ validated_against (run_trace r) = [original_source]).
Proof.
  intros Hfile Hread r ground_truth.
  assert (∀ reference_file,
            run_outcome (read_anymap_reference_file source_filename mode fs) = Ok reference_file →
            ground_truth = Some (image_data reference_file)) as Hloader.
  { intros reference_file.
    rewrite (read_anymap_reference_file_loaded _ _ _ _ _ Hfile Hread).
    unfold ground_truth. case_decide.
    - destruct (triplet_to_planar _ _ _ _) as [data|]; [|done]. by intros [= <-].
    - by intros [= <-]. }
  destruct (check_file_trace source_filename mode color fs)
    as (_ & [[Hnone Hfail] | (reference_file & Href & Hone)] & _).
  - fold r in Hnone, Hfail. split.
    + intros encoded_source original_source Hin.
      assert (original_source ∈ validated_against (run_trace r)) as Hval
        by (apply list_elem_of_omap; by eexists).
      rewrite Hnone in Hval. by apply elem_of_nil in Hval.
    + intros b Hb. by destruct (Hfail b).
  - fold r in Hone. split.
    + intros encoded_source original_source Hin.
      assert (original_source ∈ validated_against (run_trace r)) as Hval
        by (apply list_elem_of_omap; by eexists).
      rewrite Hone in Hval. apply list_elem_of_singleton in Hval. subst original_source.
      by apply Hloader.
    + intros b _. exists (image_data reference_file). split; [by apply Hloader | done].
Qed.

End GroundTruth.

(** ** All modes of a colour file *)

Section MultiMode.
Context {ext : Externals}.

(** C6: [check_color_file] hands the file to the encoder in the order
    [none], [line], [sample] and stops at the first mode whose check fails,
    with the result of that check: after a failure in mode [none] nothing
    else is run, and after a failure in mode [line] the mode [sample] is
    never encoded. *)
Theorem check_color_file_short_circuit (source_filename : string)
    (fs : gmap string (list byte)) :
  let r_none := check_file source_filename none true fs in
  let r_line := check_file source_filename line true (run_files r_none) in
  let r_sample := check_file source_filename sample true (run_files r_line) in
  let r := check_color_file source_filename fs in
  encoded_modes (run_trace r) `prefix_of` [none; line; sample]
  ∧ (run_outcome r_none = Ok false → r = r_none)
  ∧ (run_outcome r_none = Ok true → run_outcome r_line = Ok false →
       r = Run (Ok false) (run_files r_line) (run_trace r_none ++ run_trace r_line)
       ∧ sample ∉ encoded_modes (run_trace r))
  ∧ (run_outcome r_none = Ok true → run_outcome r_line = Ok true →
       r = Run (run_outcome r_sample) (run_files r_sample)
             (run_trace r_none ++ run_trace r_line ++ run_trace r_sample)).
Proof.
  intros r_none r_line r_sample r.
  destruct (check_file_trace source_filename none true fs) as [Hm_none _].
  destruct (check_file_trace source_filename line true (run_files r_none)) as [Hm_line _].
  destruct (check_file_trace source_filename sample true (run_files r_line))
    as [Hm_sample _].
  fold r_none in Hm_none. fold r_line in Hm_line. fold r_sample in Hm_sample.
  assert (r = match run_outcome r_none with
              | Ok true =>
                  match run_outcome r_line with
                  | Ok true => Run (run_outcome r_sample) (run_files r_sample)
                                 (run_trace r_none ++ run_trace r_line ++ run_trace r_sample)
                  | Ok false => Run (Ok false) (run_files r_line)
                                  (run_trace r_none ++ run_trace r_line)
                  | Throw what => Run (Throw what) (run_files r_line)
                                    (run_trace r_none ++ run_trace r_line)
                  | Undefined => Run Undefined (run_files r_line)
                                   (run_trace r_none ++ run_trace r_line)
                  end
              | _ => r_none
              end) as Hr.
  { clear Hm_none Hm_line Hm_sample. subst r r_sample r_line r_none.
    unfold check_color_file.
    destruct (check_file source_filename none true fs) as [o1 fs1 tr1] eqn:H1.
    erewrite bind_run by exact H1. cbn [run_outcome run_files run_trace].
    destruct o1 as [[|]| |]; cbn [negb]; try done.
    - destruct (check_file source_filename line true fs1) as [o2 fs2 tr2] eqn:H2.
      erewrite bind_run by exact H2. cbn [run_outcome run_files run_trace].
      destruct o2 as [[|]| |]; unfold prepend, ret;
        cbn [negb run_outcome run_files run_trace]; by rewrite ?app_nil_r.
    - unfold prepend, ret. cbn [run_outcome run_files run_trace]. by rewrite app_nil_r. }
  split; [|split; [|split]].
  - rewrite Hr.
    destruct (run_outcome r_none) as [[|]| |] eqn:Ho1.
    + destruct Hm_none as [Hn | [_ Hn]]; [|by destruct (Hn true)].
      destruct (run_outcome r_line) as [[|]| |] eqn:Ho2; cbn [run_trace];
        rewrite ?encoded_modes_app, Hn.
      * destruct Hm_line as [Hl | [_ Hl]]; [|by destruct (Hl true)]. rewrite Hl.
        destruct Hm_sample as [-> | [-> _]]; [by exists [] | by exists [sample]].
      * destruct Hm_line as [-> | [-> _]]; [by exists [sample] | by exists [line; sample]].
      * destruct Hm_line as [-> | [-> _]]; [by exists [sample] | by exists [line; sample]].
      * destruct Hm_line as [-> | [-> _]]; [by exists [sample] | by exists [line; sample]].
    + destruct Hm_none as [-> | [-> _]]; [by exists [line; sample] | by exists [none; line; sample]].
    + destruct Hm_none as [-> | [-> _]]; [by exists [line; sample] | by exists [none; line; sample]].
    + destruct Hm_none as [-> | [-> _]]; [by exists [line; sample] | by exists [none; line; sample]].
  - intros Ho1. by rewrite Hr, Ho1.
  - intros Ho1 Ho2. rewrite Hr, Ho1, Ho2. split; [done|]. cbn [run_trace].
    rewrite encoded_modes_app.
    destruct Hm_none as [-> | [-> _]]; destruct Hm_line as [-> | [-> _]]; cbn;
      intros Hin; repeat (apply elem_of_cons in Hin as [Hin|Hin]; [discriminate|]);
      by apply elem_of_nil in Hin.
  - intros Ho1 Ho2. by rewrite Hr, Ho1, Ho2.
Qed.

End MultiMode.

(** ** The entry point *)

Section Main.
Context {ext : Externals}.

(** C9: with fewer than two entries in [argv], that is without a
    directory argument, [main] prints the usage line on standard output and
    returns a non-zero status; it opens no directory, reads and writes no
    file. *)
Theorem main_usage (argv : list string) (fs : gmap string (list byte)) :
  Z.of_nat (length argv) < 2 →
  main argv fs
  = Run (Ok EXIT_FAILURE) fs [EvPuts "usage: charls_image_tester <directory-to-test>"]
  ∧ EXIT_FAILURE ≠ 0.
Proof.
  intros Hargc. split; [|done].
  unfold main, try_catch. by rewrite decide_True by done.
Qed.

End Main.

(** ** Names *)

(** C10: for each of the three interleave modes the [switch] returns, with
    the name of the mode, which is not empty; the [assert(false)] after the
    [switch] is not reached. *)
Theorem interleave_mode_to_string_total (m : interleave_mode) :
  interleave_mode_to_string_switch (interleave_mode_value m)
  = Returned (match m with none => "none" | line => "line" | sample => "sample" end)
  ∧ interleave_mode_to_string_switch (interleave_mode_value m) ≠ AssertFalse
  ∧ interleave_mode_to_string m
    = match m with none => "none" | line => "line" | sample => "sample" end
  ∧ interleave_mode_to_string m ≠ "".
Proof. by destruct m. Qed.

(** A value that is none of the three enumerators does reach the assertion. *)
Example interleave_mode_to_string_switch_invalid :
  interleave_mode_to_string_switch 3 = AssertFalse.
Proof. reflexivity. Qed.

(** ** Paths *)

Lemma string_app_assoc (a b c : string) : (a +:+ b) +:+ c = a +:+ (b +:+ c).
Proof.
  induction a as [|x a IH]; [done|].
  change (String x ((a +:+ b) +:+ c) = String x (a +:+ (b +:+ c))). by rewrite IH.
Qed.

Lemma substring_all (s : string) : String.substring 0 (String.length s) s = s.
Proof.
  induction s as [|x s IH]; [done|].
  change (String x (String.substring 0 (String.length s) s) = String x s). by rewrite IH.
Qed.

Lemma string_app_cons (x : ascii) (a b : string) : String x a +:+ b = String x (a +:+ b).
Proof. reflexivity. Qed.

Lemma rsplit_cons (c x : ascii) (s : string) :
  path.rsplit c (String x s)
  = match path.rsplit c s with
    | Some (before, after) => Some (String x before, after)
    | None => if decide (x = c) then Some (EmptyString, s) else None
    end.
Proof. reflexivity. Qed.

Lemma rsplit_cons_None (c x : ascii) (s : string) :
  path.rsplit c (String x s) = None ↔ x ≠ c ∧ path.rsplit c s = None.
Proof.
  rewrite rsplit_cons. destruct (path.rsplit c s) as [[before after]|].
  - split; [done | by intros [_ ?]].
  - case_decide; [split; [done | by intros [? _]] | done].
Qed.

(** Two strings without [c] make a string without [c]. *)
Lemma rsplit_app_None (c : ascii) (a b : string) :
  path.rsplit c a = None → path.rsplit c b = None → path.rsplit c (a +:+ b) = None.
Proof.
  intros Ha Hb. induction a as [|x a IH]; [done|].
  apply rsplit_cons_None in Ha as [Hx Ha].
  rewrite string_app_cons. apply rsplit_cons_None. auto.
Qed.

(** A string without [c] has no prefix with [c]. *)
Lemma rsplit_prefix_None (c : ascii) (a b : string) :
  path.rsplit c (a +:+ b) = None → path.rsplit c a = None.
Proof.
  induction a as [|x a IH]; [done|].
  rewrite string_app_cons, !rsplit_cons_None. intros [Hx Hab]. auto.
Qed.

(** [rsplit] cuts a string at a [c] that has no [c] after it. *)
Lemma rsplit_app_sep (c : ascii) (before after : string) :
  path.rsplit c after = None →
  path.rsplit c (before +:+ String c after) = Some (before, after).
Proof.
  intros Hafter. induction before as [|x before IH].
  - change ("" +:+ String c after) with (String c after).
    rewrite rsplit_cons, Hafter. by rewrite decide_True.
  - by rewrite string_app_cons, rsplit_cons, IH.
Qed.

Lemma rsplit_Some (c : ascii) (s before after : string) :
  path.rsplit c s = Some (before, after) →
  s = before +:+ String c after ∧ path.rsplit c after = None.
Proof.
  revert before. induction s as [|x s IH]; intros before; [done|].
  rewrite rsplit_cons.
  destruct (path.rsplit c s) as [[before' after']|] eqn:Hs.
  - intros [= <- <-]. by destruct (IH before' eq_refl) as [-> Hafter].
  - case_decide; [|done]. intros [= <- <-]. by subst.
Qed.

(** The filename of a path has no separator. *)
Lemma filename_no_separator (p : string) : path.rsplit "/" (path.filename p) = None.
Proof.
  unfold path.filename. destruct (path.rsplit "/" p) as [[dir f]|] eqn:Hp; [|done].
  by apply rsplit_Some in Hp as [_ Hf].
Qed.

Lemma stem_no_separator (p : string) : path.rsplit "/" (path.stem p) = None.
Proof.
  pose proof (filename_no_separator p) as Hf. unfold path.stem.
  case_decide; [done|].
  destruct (path.rsplit "." (path.filename p)) as [[before after]|] eqn:Hdot; [|done].
  case_decide; [done|].
  apply rsplit_Some in Hdot as [Heq _]. rewrite Heq in Hf.
  by apply rsplit_prefix_None in Hf.
Qed.

Lemma remove_filename_no_filename (p : string) :
  path.has_filename (path.remove_filename p) = false.
Proof.
  unfold path.has_filename, path.remove_filename, path.filename.
  destruct (path.rsplit "/" p) as [[dir f]|]; [|done].
  by rewrite (rsplit_app_sep "/" dir "").
Qed.

Lemma no_separator_relative (s : string) :
  path.rsplit "/" s = None → path.is_absolute s = false.
Proof.
  destruct s as [|x s]; [done|]. intros [Hx _]%rsplit_cons_None.
  unfold path.is_absolute. by destruct x as [[] [] [] [] [] [] [] []].
Qed.

(** [replace_filename] with a name without separator: the name takes the
    place of the filename, and is the filename of the result. *)
Lemma replace_filename_plain (p name : string) :
  path.rsplit "/" name = None →
  path.replace_filename p name = path.remove_filename p +:+ name
  ∧ path.filename (path.remove_filename p +:+ name) = name.
Proof.
  intros Hname. split.
  - unfold path.replace_filename, path.append.
    by rewrite (no_separator_relative _ Hname), remove_filename_no_filename.
  - unfold path.remove_filename, path.filename at 1.
    destruct (path.rsplit "/" p) as [[dir f]|].
    + rewrite string_app_assoc. change ("/" +:+ name) with (String "/" name).
      by rewrite (rsplit_app_sep "/" dir name Hname).
    + change ("" +:+ name) with name. by rewrite Hname.
Qed.

(** [replace_extension] on a path whose filename has no period. *)
Lemma replace_extension_plain (p ext : string) :
  path.rsplit "." (path.filename p) = None →
  path.replace_extension p (String "." ext) = p +:+ String "." ext.
Proof.
  intros Hdot. unfold path.replace_extension.
  assert (path.extension p = "") as ->.
  { unfold path.extension. case_decide; [done|]. by rewrite Hdot. }
  cbn [String.length]. by rewrite Nat.sub_0_r, substring_all.
Qed.

(** The name of the output file of a source file whose stem has no period:
    the stem, a hyphen, the name of the mode and [.jls], in the directory of
    the source file. *)
Lemma generate_output_filename_plain_stem (source_filename : string) (mode : interleave_mode) :
  path.rsplit "." (path.stem source_filename) = None →
  generate_output_filename source_filename mode
  = path.remove_filename source_filename
    +:+ path.stem source_filename +:+ "-" +:+ interleave_mode_to_string mode +:+ ".jls".
Proof.
  intros Hstem. unfold generate_output_filename.
  set (name := path.stem source_filename +:+ "-" +:+ interleave_mode_to_string mode).
  assert (path.rsplit "/" name = None) as Hsep.
  { apply rsplit_app_None; [apply stem_no_separator | by destruct mode]. }
  assert (path.rsplit "." name = None) as Hdot.
  { apply rsplit_app_None; [done | by destruct mode]. }
  destruct (replace_filename_plain source_filename name Hsep) as [-> Hfile].
  rewrite replace_extension_plain by (by rewrite Hfile).
  unfold name. by rewrite !string_app_assoc.
Qed.

(** ** The output file *)

Section OutputFile.
Context {ext : Externals}.

(** A check that ends with a result, on a source file whose stem has no
    period, has written its bitstream to [<stem>-<mode>.jls] in the directory
    of the source file; whatever that file held is replaced, and no other
    file is changed. *)
Lemma check_file_output_file (source_filename : string) (mode : interleave_mode)
    (color b : bool) (fs : gmap string (list byte)) :
  path.rsplit "." (path.stem source_filename) = None →
  run_outcome (check_file source_filename mode color fs) = Ok b →
  let output_filename :=
    path.remove_filename source_filename
    +:+ path.stem source_filename +:+ "-" +:+ interleave_mode_to_string mode +:+ ".jls" in
  ∃ data,
    run_files (check_file source_filename mode color fs) = <[output_filename := data]> fs
    ∧ EvWrite output_filename data ∈ run_trace (check_file source_filename mode color fs).
Proof.
  intros Hstem Hb output_filename.
  destruct (check_file_trace source_filename mode color fs) as (_ & _ & Hout).
  destruct (Hout b Hb) as (data & Hfiles & Hwrite).
  rewrite (generate_output_filename_plain_stem _ _ Hstem) in Hfiles, Hwrite.
  by exists data.
Qed.

End OutputFile.

(** C8, at a source file whose stem has a period: [main] tests
    [img.v2.ppm], whose stem is [img.v2], and for each of the three modes
    [generate_output_filename] gives [img.jls], not [img.v2-<mode>.jls]:
    [replace_extension] takes [.v2-<mode>] for the extension and drops it.
    The three bitstreams of the file are written one over the other. *)
Theorem generate_output_filename_dotted_stem :
  path.extension "img.v2.ppm" = ".ppm"
  ∧ path.stem "img.v2.ppm" = "img.v2"
  ∧ generate_output_filename "img.v2.ppm" none = "img.jls"
  ∧ generate_output_filename "img.v2.ppm" line = "img.jls"
  ∧ generate_output_filename "img.v2.ppm" sample = "img.jls"
  ∧ generate_output_filename "img.v2.ppm" none ≠ "img.v2-none.jls"
  ∧ (let r := check_file (ext := lossless_codec) "img.v2.ppm" none true test_files in
     run_outcome r = Ok true
     ∧ EvWrite "img.jls" rgb_2x1_planar_stream ∈ run_trace r
     ∧ run_files r !! "img.v2-none.jls"%string = None).
Proof.
  repeat split; try done.
  vm_compute. repeat constructor.
Qed.

(** For a source file with a plain stem the name is the one the
    specification gives. *)
Example generate_output_filename_plain :
  generate_output_filename "dir/a.ppm" none = "dir/a-none.jls"
  ∧ generate_output_filename "dir/a.ppm" line = "dir/a-line.jls"
  ∧ generate_output_filename "/x.y/b.pgm" sample = "/x.y/b-sample.jls".
Proof. done. Qed.

(** ** The scenarios of the specification, run *)

(** The 4x2, 8-bit, 3-component scenario, for any sample values. *)
Example triplet_to_planar_4x2 (r0 g0 b0 r1 g1 b1 r2 g2 b2 r3 g3 b3
    r4 g4 b4 r5 g5 b5 r6 g6 b6 r7 g7 b7 : byte) :
  triplet_to_planar
    [r0; g0; b0; r1; g1; b1; r2; g2; b2; r3; g3; b3;
     r4; g4; b4; r5; g5; b5; r6; g6; b6; r7; g7; b7] 4 2 8
  = Some [r0; r1; r2; r3; r4; r5; r6; r7;
          g0; g1; g2; g3; g4; g5; g6; g7;
          b0; b1; b2; b3; b4; b5; b6; b7].
Proof. reflexivity. Qed.

Example triplet_to_planar_16bit :
  triplet_to_planar rgb16_2x1 2 1 16 = Some (bytes_of [1;2; 7;8; 3;4; 9;10; 5;6; 11;12]).
Proof. reflexivity. Qed.

(** Without the precondition on the size the transform reads past the end
    of its buffer. *)
Example triplet_to_planar_short_buffer :
  triplet_to_planar (bytes_of [1;2;3;4;5]) 2 1 8 = None.
Proof. reflexivity. Qed.

(** ** The theorems at concrete inputs *)

Lemma triplet_to_planar_samples_4x2 :
  ∃ out, triplet_to_planar rgb_4x2 4 2 8 = Some out
    ∧ length out = length rgb_4x2
    ∧ ∀ i k, 0 ≤ i < 4 * 2 → 0 ≤ k < 3 →
        is_Some (sample_get 8 rgb_4x2 (i * 3 + k))
        ∧ sample_get 8 out (i + k * (4 * 2)) = sample_get 8 rgb_4x2 (i * 3 + k).
Proof.
  apply (triplet_to_planar_samples rgb_4x2 4 2 8); [lia | lia | reflexivity | reflexivity].
Defined.

Lemma triplet_to_planar_invertible_16bit :
  ∃ out, triplet_to_planar rgb16_2x1 2 1 16 = Some out
    ∧ length out = length rgb16_2x1
    ∧ planar_to_triplet out 2 1 16 = rgb16_2x1.
Proof.
  apply (triplet_to_planar_invertible rgb16_2x1 2 1 16);
    [lia | lia | reflexivity | reflexivity].
Defined.

(** The size check, on a stream of three samples against a reference of two. *)
Lemma test_by_decoding_size_mismatch_3_against_2 :
  test_by_decoding (ext := lossless_codec) (bytes_of [0;0;1;2;3]) (bytes_of [1;2]) ∅
  = Run (Ok false) ∅
      [EvTestByDecoding (bytes_of [0;0;1;2;3]) (bytes_of [1;2]); EvClock;
       EvDecode (bytes_of [0;0;1;2;3]); EvClock; size_mismatch]
  ∧ ∀ i, EvCompare i ∉ run_trace (test_by_decoding (ext := lossless_codec)
                                    (bytes_of [0;0;1;2;3]) (bytes_of [1;2]) ∅).
Proof.
  apply (test_by_decoding_size_mismatch (ext := lossless_codec)
           (bytes_of [0;0;1;2;3]) (bytes_of [1;2]) ∅ (bytes_of [0;0;1;2;3]) 3
           (bytes_of [1;2;3])); [reflexivity | reflexivity | reflexivity | ].
  vm_compute. lia.
Defined.

(** The comparison, on a lossless stream with one wrong sample and on a
    near-lossless stream with three. *)
Lemma test_by_decoding_equal_sizes_both_modes :
  (let r := test_by_decoding (ext := lossless_codec) (bytes_of [0;0;1;2;3]) (bytes_of [1;9;3]) ∅ in
   run_outcome r = Ok (bool_decide (bytes_of [1;2;3] = bytes_of [1;9;3]))
   ∧ (run_outcome r = Ok true ↔ ∀ i, bytes_of [1;2;3] !! i = bytes_of [1;9;3] !! i)
   ∧ (run_outcome r = Ok false ↔ ∃ i, bytes_of [1;2;3] !! i ≠ bytes_of [1;9;3] !! i)
   ∧ ∃ compared,
       run_trace r
       = [EvTestByDecoding (bytes_of [0;0;1;2;3]) (bytes_of [1;9;3]); EvClock;
          EvDecode (bytes_of [0;0;1;2;3]); EvClock]
         ++ (EvCompare <$> compared)
         ++ (if bool_decide (bytes_of [1;2;3] = bytes_of [1;9;3]) then [] else [value_mismatch]))
  ∧ (let r := test_by_decoding (ext := near_lossless_codec) (bytes_of [3;0;1;2;3])
                (bytes_of [7;8;9]) ∅ in
     r = Run (Ok true) ∅
           [EvTestByDecoding (bytes_of [3;0;1;2;3]) (bytes_of [7;8;9]); EvClock;
            EvDecode (bytes_of [3;0;1;2;3]); EvClock]
     ∧ ∀ i, EvCompare i ∉ run_trace r).
Proof.
  split.
  - apply (test_by_decoding_equal_sizes (ext := lossless_codec)
             (bytes_of [0;0;1;2;3]) (bytes_of [1;9;3]) ∅ (bytes_of [0;0;1;2;3]) 3
             (bytes_of [1;2;3]));
      [reflexivity | reflexivity | reflexivity | reflexivity | reflexivity].
  - apply (test_by_decoding_equal_sizes (ext := near_lossless_codec)
             (bytes_of [3;0;1;2;3]) (bytes_of [7;8;9]) ∅ (bytes_of [3;0;1;2;3]) 3
             (bytes_of [1;2;3]));
      [reflexivity | reflexivity | reflexivity | reflexivity | reflexivity].
Defined.

(** The loader on the 2x1 colour file: in mode [none] it returns the planar
    samples 1 4 2 5 3 6 under the header read, in mode [line] the file as
    read. *)
Lemma read_anymap_reference_file_transform_2x1 :
  (∃ reference_file,
     run_outcome (read_anymap_reference_file (ext := lossless_codec) "a.ppm" none test_files)
     = Ok reference_file
     ∧ image_data reference_file = bytes_of [1;4;2;5;3;6]
     ∧ width reference_file = 2
     ∧ height reference_file = 1
     ∧ bits_per_sample reference_file = 8
     ∧ component_count reference_file = 3)
  ∧ run_outcome (read_anymap_reference_file (ext := lossless_codec) "a.ppm" line test_files)
    = Ok rgb_2x1_loaded.
Proof.
  split.
  - destruct (read_anymap_reference_file_transform (ext := lossless_codec) "a.ppm" none
                test_files rgb_2x1_file rgb_2x1_loaded) as [Hyes _];
      [reflexivity | reflexivity |].
    destruct Hyes as [Hsome _]; [split; reflexivity|].
    apply Hsome. reflexivity.
  - destruct (read_anymap_reference_file_transform (ext := lossless_codec) "a.ppm" line
                test_files rgb_2x1_file rgb_2x1_loaded) as (_ & Hno & _);
      [reflexivity | reflexivity |].
    apply Hno. left. discriminate.
Defined.

(** C1 as the specification states it fails on the 2x1 colour file in mode
    [none]: the reader returns the samples 1 2 3 4 5 6, and the reference
    buffer that [check_file] hands to [test_by_decoding] is 1 4 2 5 3 6, the
    planar buffer. *)
Lemma check_file_ground_truth_is_not_the_loaded_buffer :
  test_files !! "a.ppm"%string = Some rgb_2x1_file
  ∧ anymap_read (Externals := lossless_codec) rgb_2x1_file = inr rgb_2x1_loaded
  ∧ EvTestByDecoding rgb_2x1_planar_stream rgb_2x1_planar
      ∈ run_trace (check_file (ext := lossless_codec) "a.ppm" none true test_files)
  ∧ rgb_2x1_planar ≠ image_data rgb_2x1_loaded.
Proof.
  split; [reflexivity|]. split; [reflexivity|]. split; [|discriminate].
  vm_compute. repeat constructor.
Qed.

(** The ground truth of the same run, through the theorem. *)
Lemma check_file_ground_truth_2x1 :
  ∃ original_source,
    triplet_to_planar rgb_2x1 2 1 8 = Some original_source
    ∧ validated_against
        (run_trace (check_file (ext := lossless_codec) "a.ppm" none true test_files))
      = [original_source].
Proof.
  destruct (check_file_ground_truth (ext := lossless_codec) "a.ppm" none true test_files
              rgb_2x1_file rgb_2x1_loaded eq_refl eq_refl) as [_ Hresult].
  exact (Hresult true eq_refl).
Defined.

(** A colour file on the codec that fails in mode [line]: mode [none]
    passes, mode [line] fails, and [sample] is not encoded. *)
Lemma check_color_file_short_circuit_on_line :
  run_outcome (check_file (ext := line_broken_codec) "a.ppm" none true test_files) = Ok true
  ∧ run_outcome (check_color_file (ext := line_broken_codec) "a.ppm" test_files) = Ok false
  ∧ encoded_modes (run_trace (check_color_file (ext := line_broken_codec) "a.ppm" test_files))
    = [none; line]
  ∧ sample ∉ encoded_modes
               (run_trace (check_color_file (ext := line_broken_codec) "a.ppm" test_files)).
Proof.
  destruct (check_color_file_short_circuit (ext := line_broken_codec) "a.ppm" test_files)
    as (_ & _ & Hline & _).
  destruct Hline as [Hrun Hsample]; [reflexivity | reflexivity |].
  split; [reflexivity|]. split; [by rewrite Hrun|]. split; [reflexivity | exact Hsample].
Defined.

(** [main] without a directory argument. *)
Lemma main_usage_no_argument :
  main (ext := lossless_codec) ["charls_image_tester"%string] test_files
  = Run (Ok EXIT_FAILURE) test_files
      [EvPuts "usage: charls_image_tester <directory-to-test>"]
  ∧ EXIT_FAILURE ≠ 0.
Proof.
  apply (main_usage (ext := lossless_codec) ["charls_image_tester"%string] test_files).
  reflexivity.
Defined.

(** [main] on the test directory with the lossless codec: every mode of
    every file passes. *)
Example main_passes :
  run_outcome (main (ext := lossless_codec) ["charls_image_tester"; ""]%string test_files)
  = Ok EXIT_SUCCESS.
Proof. reflexivity. Qed.

(** * Further properties *)

(** ** [triplet_to_planar] on buffers of any size *)

(** Neither loop changes the size of the work buffer. *)
Lemma triplet_to_planar_loop8_length (count : nat) (i samples_per_plane : Z)
    (buffer work out : list byte) :
  triplet_to_planar_loop8 count i samples_per_plane buffer work = Some out →
  length out = length work.
Proof.
  revert i work. induction count as [|count IH]; intros i work; cbn [triplet_to_planar_loop8].
  - by intros [= <-].
  - intros Hstep.
    repeat match type of Hstep with
      | mbind _ ?o = Some _ =>
          let x := fresh "x" in let Hx := fresh "Hx" in
          destruct o as [x|] eqn:Hx; [cbn [mbind option_bind] in Hstep | discriminate]
      end.
    apply IH in Hstep. rewrite Hstep.
    unfold vec_set in *.
    repeat match goal with
      | H : (if decide ?P then _ else _) = Some _ |- _ =>
          destruct (decide P); [injection H as <- | discriminate]
      end.
    by rewrite !length_insert.
Qed.

Lemma set16_length (v : list byte) (j x : Z) (out : list byte) :
  set16 v j x = Some out → length out = length v.
Proof.
  unfold set16, vec_set. intros Hset.
  destruct (decide (0 ≤ 2 * j < Z.of_nat (length v))); [|discriminate].
  cbn [mbind option_bind] in Hset.
  destruct (decide _); [injection Hset as <- | discriminate].
  by rewrite !length_insert.
Qed.

Lemma triplet_to_planar_loop16_length (count : nat) (i samples_per_plane : Z)
    (buffer work out : list byte) :
  triplet_to_planar_loop16 count i samples_per_plane buffer work = Some out →
  length out = length work.
Proof.
  revert i work. induction count as [|count IH]; intros i work; cbn [triplet_to_planar_loop16].
  - by intros [= <-].
  - intros Hstep.
    repeat match type of Hstep with
      | mbind _ ?o = Some _ =>
          let x := fresh "x" in let Hx := fresh "Hx" in
          destruct o as [x|] eqn:Hx; [cbn [mbind option_bind] in Hstep | discriminate]
      end.
    apply IH in Hstep. rewrite Hstep.
    repeat match goal with
      | H : set16 _ _ _ = Some _ |- _ => apply set16_length in H; rewrite H; clear H
      end.
    done.
Qed.

Lemma triplet_to_planar_Some_length (buffer : list byte) (width height bits_per_sample : Z)
    (out : list byte) :
  triplet_to_planar buffer width height bits_per_sample = Some out →
  length out = length buffer.
Proof.
  unfold triplet_to_planar. case_decide; intros Hout.
  - apply triplet_to_planar_loop16_length in Hout. by rewrite Hout, length_replicate.
  - apply triplet_to_planar_loop8_length in Hout. by rewrite Hout, length_replicate.
Qed.

(** X1: whenever [triplet_to_planar] stays in bounds, whatever the dimensions
    and the bit depth it is given, the buffer keeps its size. *)
Theorem triplet_to_planar_length (buffer : list byte) (width height bits_per_sample : Z)
    (out : list byte) :
  triplet_to_planar buffer width height bits_per_sample = Some out →
  length out = length buffer.
Proof. apply triplet_to_planar_Some_length. Qed.

(** The 8-bit loop on a buffer of at least [3 * n] samples: the plane
    offsets of the pixels from [i] on are filled, every other byte of the work
    buffer stays as it was. *)
Lemma triplet_to_planar_loop8_frame (n : nat) (buffer : list byte) :
  (3 * n ≤ length buffer)%nat → Z.of_nat (3 * n) < SIZE_MODULUS →
  ∀ (count i : nat) (work : list byte),
    (i + count = n)%nat → length work = length buffer →
    ∃ out, triplet_to_planar_loop8 count (Z.of_nat i) (Z.of_nat n) buffer work = Some out
      ∧ (∀ i' k, (i ≤ i' < n)%nat → (k < 3)%nat →
           out !! (i' + k * n)%nat = buffer !! (3 * i' + k)%nat)
      ∧ (∀ p, (∀ i' k, (i ≤ i' < n)%nat → (k < 3)%nat → p ≠ (i' + k * n)%nat) →
           out !! p = work !! p).
Proof.
  intros Hlen Hmax.
  induction count as [|count IH]; intros i work Hi Hwork.
  - exists work. split; [done|]. split; [intros; lia | done].
  - cbn [triplet_to_planar_loop8].
    size_t_simpl.
    replace (Z.of_nat i * 3 + 0) with (Z.of_nat (3 * i + 0)) by lia.
    replace (Z.of_nat i * 3 + 1) with (Z.of_nat (3 * i + 1)) by lia.
    replace (Z.of_nat i * 3 + 2) with (Z.of_nat (3 * i + 2)) by lia.
    replace (Z.of_nat i + 1 * Z.of_nat n) with (Z.of_nat (i + 1 * n)) by lia.
    replace (Z.of_nat i + 2 * Z.of_nat n) with (Z.of_nat (i + 2 * n)) by lia.
    replace (Z.of_nat i + 1) with (Z.of_nat (S i)) by lia.
    rewrite !vec_get_nat.
    destruct (lookup_lt_is_Some_2 buffer (3 * i + 0)%nat) as [s0 Hs0]; [lia|].
    destruct (lookup_lt_is_Some_2 buffer (3 * i + 1)%nat) as [s1 Hs1]; [lia|].
    destruct (lookup_lt_is_Some_2 buffer (3 * i + 2)%nat) as [s2 Hs2]; [lia|].
    rewrite Hs0. cbn [mbind option_bind]. rewrite vec_set_nat by lia.
    cbn [mbind option_bind]. rewrite Hs1. cbn [mbind option_bind].
    rewrite vec_set_nat by (rewrite !length_insert; lia).
    cbn [mbind option_bind]. rewrite Hs2. cbn [mbind option_bind].
    rewrite vec_set_nat by (rewrite !length_insert; lia).
    cbn [mbind option_bind].
    set (w2 := <[(i + 2 * n)%nat := s2]> (<[(i + 1 * n)%nat := s1]> (<[i := s0]> work))).
    destruct (IH (S i) w2) as (out & Hout & Hnew & Hold);
      [lia | by unfold w2; rewrite !length_insert |].
    exists out. split; [done|]. split.
    + intros i' k Hi' Hk. destruct (decide (i' = i)) as [->|Hne]; [|apply Hnew; lia].
      rewrite Hold.
      2:{ intros i'' k'' Hi'' Hk'' Heq.
          apply plane_offset_inj in Heq as [? _]; lia. }
      unfold w2.
      assert (k = 0 ∨ k = 1 ∨ k = 2)%nat as [-> | [-> | ->]] by lia.
      * rewrite !list_lookup_insert_ne by lia.
        replace (i + 0 * n)%nat with i by lia.
        by rewrite list_lookup_insert_eq by lia.
      * rewrite list_lookup_insert_ne by lia.
        by rewrite list_lookup_insert_eq by (rewrite length_insert; lia).
      * by rewrite list_lookup_insert_eq by (rewrite !length_insert; lia).
    + intros p Hp. rewrite Hold by (intros i' k Hi' Hk; apply Hp; lia).
      pose proof (Hp i 0%nat ltac:(lia) ltac:(lia)).
      pose proof (Hp i 1%nat ltac:(lia) ltac:(lia)).
      pose proof (Hp i 2%nat ltac:(lia) ltac:(lia)).
      unfold w2. by rewrite !list_lookup_insert_ne by lia.
Qed.

(** The same for the 16-bit loop, byte by byte. *)
Lemma triplet_to_planar_loop16_frame (n : nat) (buffer : list byte) :
  (2 * (3 * n) ≤ length buffer)%nat → Z.of_nat (2 * (3 * n)) < SIZE_MODULUS →
  ∀ (count i : nat) (work : list byte),
    (i + count = n)%nat → length work = length buffer →
    ∃ out, triplet_to_planar_loop16 count (Z.of_nat i) (Z.of_nat n) buffer work = Some out
      ∧ (∀ i' k b, (i ≤ i' < n)%nat → (k < 3)%nat → (b < 2)%nat →
           out !! (2 * (i' + k * n) + b)%nat = buffer !! (2 * (3 * i' + k) + b)%nat)
      ∧ (∀ p, (∀ i' k b, (i ≤ i' < n)%nat → (k < 3)%nat → (b < 2)%nat →
                 p ≠ (2 * (i' + k * n) + b)%nat) →
           out !! p = work !! p).
Proof.
  intros Hlen Hmax.
  induction count as [|count IH]; intros i work Hi Hwork.
  - exists work. split; [done|]. split; [intros; lia | done].
  - cbn [triplet_to_planar_loop16].
    size_t_simpl.
    replace (Z.of_nat i * 3 + 0) with (Z.of_nat (3 * i + 0)) by lia.
    replace (Z.of_nat i * 3 + 1) with (Z.of_nat (3 * i + 1)) by lia.
    replace (Z.of_nat i * 3 + 2) with (Z.of_nat (3 * i + 2)) by lia.
    replace (Z.of_nat i + 1 * Z.of_nat n) with (Z.of_nat (i + 1 * n)) by lia.
    replace (Z.of_nat i + 2 * Z.of_nat n) with (Z.of_nat (i + 2 * n)) by lia.
    replace (Z.of_nat i + 1) with (Z.of_nat (S i)) by lia.
    destruct (lookup_lt_is_Some_2 buffer (2 * (3 * i + 0))%nat) as [l0 Hl0]; [lia|].
    destruct (lookup_lt_is_Some_2 buffer (2 * (3 * i + 0) + 1)%nat) as [h0 Hh0]; [lia|].
    destruct (lookup_lt_is_Some_2 buffer (2 * (3 * i + 1))%nat) as [l1 Hl1]; [lia|].
    destruct (lookup_lt_is_Some_2 buffer (2 * (3 * i + 1) + 1)%nat) as [h1 Hh1]; [lia|].
    destruct (lookup_lt_is_Some_2 buffer (2 * (3 * i + 2))%nat) as [l2 Hl2]; [lia|].
    destruct (lookup_lt_is_Some_2 buffer (2 * (3 * i + 2) + 1)%nat) as [h2 Hh2]; [lia|].
    rewrite (get16_nat _ _ _ _ Hl0 Hh0), (get16_nat _ _ _ _ Hl1 Hh1),
      (get16_nat _ _ _ _ Hl2 Hh2).
    cbn [mbind option_bind]. rewrite set16_nat by lia.
    cbn [mbind option_bind]. rewrite set16_nat by (rewrite !length_insert; lia).
    cbn [mbind option_bind]. rewrite set16_nat by (rewrite !length_insert; lia).
    cbn [mbind option_bind].
    set (w2 := <[(2 * (i + 2 * n) + 1)%nat := h2]> (<[(2 * (i + 2 * n))%nat := l2]>
               (<[(2 * (i + 1 * n) + 1)%nat := h1]> (<[(2 * (i + 1 * n))%nat := l1]>
               (<[(2 * i + 1)%nat := h0]> (<[(2 * i)%nat := l0]> work)))))).
    destruct (IH (S i) w2) as (out & Hout & Hnew & Hold);
      [lia | by unfold w2; rewrite !length_insert |].
    exists out. split; [done|]. split.
    + intros i' k b Hi' Hk Hb.
      destruct (decide (i' = i)) as [->|Hne]; [|apply Hnew; lia].
      rewrite Hold.
      2:{ intros i'' k'' b'' Hi'' Hk'' Hb'' Heq.
          assert (i + k * n = i'' + k'' * n)%nat as Heq' by lia.
          apply plane_offset_inj in Heq' as [? _]; lia. }
      unfold w2.
      assert (k = 0 ∨ k = 1 ∨ k = 2)%nat as [-> | [-> | ->]] by lia;
      assert (b = 0 ∨ b = 1)%nat as [-> | ->] by lia;
        repeat (rewrite list_lookup_insert_ne by lia);
        match goal with
        | |- <[?j := _]> _ !! ?p = _ => replace p with j by lia
        end;
        rewrite list_lookup_insert_eq by (rewrite ?length_insert; lia);
        match goal with
        | Hx : buffer !! ?q' = Some ?x |- Some ?x = buffer !! ?q =>
            replace q with q' by lia; by rewrite Hx
        end.
    + intros p Hp.
      rewrite Hold by (intros i' k b Hi' Hk Hb; apply Hp; lia).
      pose proof (Hp i 0%nat 0%nat ltac:(lia) ltac:(lia) ltac:(lia)).
      pose proof (Hp i 0%nat 1%nat ltac:(lia) ltac:(lia) ltac:(lia)).
      pose proof (Hp i 1%nat 0%nat ltac:(lia) ltac:(lia) ltac:(lia)).
      pose proof (Hp i 1%nat 1%nat ltac:(lia) ltac:(lia) ltac:(lia)).
      pose proof (Hp i 2%nat 0%nat ltac:(lia) ltac:(lia) ltac:(lia)).
      pose proof (Hp i 2%nat 1%nat ltac:(lia) ltac:(lia) ltac:(lia)).
      unfold w2. by rewrite !list_lookup_insert_ne by lia.
Qed.

(** A loop that stays in bounds has read the last sample of the last
    pixel, so the buffer holds [3 * n] samples. *)
Lemma triplet_to_planar_loop8_bound (n : nat) (buffer : list byte) :
  Z.of_nat (3 * n) < SIZE_MODULUS →
  ∀ (count i : nat) (work out : list byte),
    (i + count = n)%nat →
    triplet_to_planar_loop8 count (Z.of_nat i) (Z.of_nat n) buffer work = Some out →
    ∀ j, (i ≤ j < n)%nat → (3 * j + 2 < length buffer)%nat.
Proof.
  intros Hmax. induction count as [|count IH]; intros i work out Hi; [intros; lia|].
  cbn [triplet_to_planar_loop8]. size_t_simpl.
  replace (Z.of_nat i * 3 + 2) with (Z.of_nat (3 * i + 2)) by lia.
  replace (Z.of_nat i + 1) with (Z.of_nat (S i)) by lia.
  rewrite !vec_get_nat. intros Hstep j Hj.
  repeat match type of Hstep with
    | mbind _ ?o = Some _ =>
        let x := fresh "x" in let Hx := fresh "Hx" in
        destruct o as [x|] eqn:Hx; [cbn [mbind option_bind] in Hstep | discriminate]
    end.
  destruct (decide (j = i)) as [->|Hne].
  - match goal with
    | H : buffer !! (3 * i + 2)%nat = Some _ |- _ => by apply lookup_lt_Some in H
    end.
  - eapply (IH (S i)); [lia | exact Hstep | lia].
Qed.

Lemma get16_Some_bound (v : list byte) (j : nat) (x : Z) :
  get16 v (Z.of_nat j) = Some x → (2 * j + 1 < length v)%nat.
Proof.
  rewrite get16_lookup. intros Hget.
  destruct (v !! (2 * j)%nat) as [lo|]; [|discriminate]. cbn [mbind option_bind] in Hget.
  destruct (v !! (2 * j + 1)%nat) as [hi|] eqn:Hhi; [|discriminate].
  by apply lookup_lt_Some in Hhi.
Qed.

Lemma triplet_to_planar_loop16_bound (n : nat) (buffer : list byte) :
  Z.of_nat (2 * (3 * n)) < SIZE_MODULUS →
  ∀ (count i : nat) (work out : list byte),
    (i + count = n)%nat →
    triplet_to_planar_loop16 count (Z.of_nat i) (Z.of_nat n) buffer work = Some out →
    ∀ j, (i ≤ j < n)%nat → (2 * (3 * j + 2) + 1 < length buffer)%nat.
Proof.
  intros Hmax. induction count as [|count IH]; intros i work out Hi; [intros; lia|].
  cbn [triplet_to_planar_loop16]. size_t_simpl.
  replace (Z.of_nat i * 3 + 2) with (Z.of_nat (3 * i + 2)) by lia.
  replace (Z.of_nat i + 1) with (Z.of_nat (S i)) by lia.
  intros Hstep j Hj.
  repeat match type of Hstep with
    | mbind _ ?o = Some _ =>
        let x := fresh "x" in let Hx := fresh "Hx" in
        destruct o as [x|] eqn:Hx; [cbn [mbind option_bind] in Hstep | discriminate]
    end.
  destruct (decide (j = i)) as [->|Hne].
  - match goal with
    | H : get16 buffer (Z.of_nat (3 * i + 2)) = Some _ |- _ =>
        by apply get16_Some_bound in H
    end.
  - eapply (IH (S i)); [lia | exact Hstep | lia].
Qed.

(** X2: for dimensions whose sample count does not overflow [size_t],
    [triplet_to_planar] stays in bounds exactly when the buffer holds at
    least [width * height * 3] samples: on any shorter buffer some access is
    past the end. *)
Theorem triplet_to_planar_in_bounds (buffer : list byte) (width height bits_per_sample : Z) :
  0 ≤ width → 0 ≤ height →
  width * height * 3 * Z.of_nat (bytes_per_sample bits_per_sample) < SIZE_MODULUS →
  is_Some (triplet_to_planar buffer width height bits_per_sample)
  ↔ width * height * 3 * Z.of_nat (bytes_per_sample bits_per_sample)
    ≤ Z.of_nat (length buffer).
Proof.
  intros Hw Hh Hmax.
  assert (0 ≤ width * height) as Hn by lia.
  assert (width * height < SIZE_MODULUS) as Hsmall.
  { unfold bytes_per_sample in Hmax. case_decide; lia. }
  unfold triplet_to_planar. rewrite size_t_small by lia.
  set (n := Z.to_nat (width * height)).
  replace (width * height) with (Z.of_nat n) in * by lia.
  clearbody n.
  unfold bytes_per_sample in *. case_decide; split.
  - intros [out Hout]. destruct n as [|n']; [lia|].
    pose proof (triplet_to_planar_loop16_bound (S n') buffer ltac:(lia) _ 0%nat _ _
                  eq_refl Hout n' ltac:(lia)). lia.
  - intros Hlen.
    destruct (triplet_to_planar_loop16_frame n buffer) with (count := n) (i := 0%nat)
      (work := replicate (length buffer) Byte.x00) as (out & Hout & _);
      [lia | lia | lia | by rewrite length_replicate |].
    by exists out.
  - intros [out Hout]. destruct n as [|n']; [lia|].
    pose proof (triplet_to_planar_loop8_bound (S n') buffer ltac:(lia) _ 0%nat _ _
                  eq_refl Hout n' ltac:(lia)). lia.
  - intros Hlen.
    destruct (triplet_to_planar_loop8_frame n buffer) with (count := n) (i := 0%nat)
      (work := replicate (length buffer) Byte.x00) as (out & Hout & _);
      [lia | lia | lia | by rewrite length_replicate |].
    by exists out.
Qed.

(** Every byte offset below [3 * n] samples is byte [b] of the sample of
    some pixel [i] in some plane [k]. *)
Lemma plane_offset_decompose (n unit p : nat) :
  (0 < unit)%nat → (p < unit * (3 * n))%nat →
  ∃ i k b, (i < n)%nat ∧ (k < 3)%nat ∧ (b < unit)%nat ∧ p = (unit * (i + k * n) + b)%nat.
Proof.
  intros Hunit Hp.
  assert (0 < n)%nat as Hn by lia.
  pose proof (Nat.div_mod_eq p unit) as Hpu.
  pose proof (Nat.mod_upper_bound p unit ltac:(lia)) as Hb.
  pose proof (Nat.div_mod_eq (p / unit) n) as Hsn.
  pose proof (Nat.mod_upper_bound (p / unit) n ltac:(lia)) as Hi.
  assert (p / unit < 3 * n)%nat as Hs by (apply Nat.Div0.div_lt_upper_bound; lia).
  assert (p / unit / n < 3)%nat as Hk by (apply Nat.Div0.div_lt_upper_bound; lia).
  exists ((p / unit) mod n)%nat, (p / unit / n)%nat, (p mod unit)%nat.
  repeat split; [done..|]. nia.
Qed.

(** The byte-level result of [triplet_to_planar] on a buffer that may be
    longer than its three planes: the planes are filled from the source and
    everything after them is zero. *)
Lemma triplet_to_planar_bytes_padded (buffer : list byte) (width height bits_per_sample : Z) :
  0 ≤ width → 0 ≤ height →
  width * height * 3 * Z.of_nat (bytes_per_sample bits_per_sample)
    ≤ Z.of_nat (length buffer) →
  width * height * 3 * Z.of_nat (bytes_per_sample bits_per_sample) < SIZE_MODULUS →
  ∃ out, triplet_to_planar buffer width height bits_per_sample = Some out
    ∧ length out = length buffer
    ∧ (∀ i k b, (i < Z.to_nat (width * height))%nat → (k < 3)%nat →
         (b < bytes_per_sample bits_per_sample)%nat →
         out !! (bytes_per_sample bits_per_sample * (i + k * Z.to_nat (width * height)) + b)%nat
         = buffer !! (bytes_per_sample bits_per_sample * (3 * i + k) + b)%nat)
    ∧ (∀ p, (bytes_per_sample bits_per_sample * (3 * Z.to_nat (width * height)) ≤ p
             < length buffer)%nat →
         out !! p = Some Byte.x00).
Proof.
  intros Hw Hh Hlen Hmax.
  assert (0 ≤ width * height) as Hn by lia.
  assert (width * height < SIZE_MODULUS) as Hsmall.
  { unfold bytes_per_sample in Hmax. case_decide; lia. }
  assert (∀ out, triplet_to_planar buffer width height bits_per_sample = Some out →
            length out = length buffer) as Hlen'
    by apply triplet_to_planar_Some_length.
  revert Hlen'. unfold triplet_to_planar. rewrite size_t_small by lia.
  set (n := Z.to_nat (width * height)).
  replace (width * height) with (Z.of_nat n) in * by lia. clearbody n.
  unfold bytes_per_sample in *. case_decide; intros Hlen'.
  - destruct (triplet_to_planar_loop16_frame n buffer) with (count := n) (i := 0%nat)
      (work := replicate (length buffer) Byte.x00) as (out & Hout & Hnew & Hold);
      [lia | lia | lia | by rewrite length_replicate |].
    change (Z.of_nat 0) with 0 in Hout.
    exists out. split; [done|]. split; [by apply Hlen'|]. split.
    + intros i k b Hi Hk Hb. apply Hnew; lia.
    + intros p Hp. rewrite Hold by (intros i k b Hi Hk Hb; nia).
      apply lookup_replicate_2. lia.
  - destruct (triplet_to_planar_loop8_frame n buffer) with (count := n) (i := 0%nat)
      (work := replicate (length buffer) Byte.x00) as (out & Hout & Hnew & Hold);
      [lia | lia | lia | by rewrite length_replicate |].
    change (Z.of_nat 0) with 0 in Hout.
    exists out. split; [done|]. split; [by apply Hlen'|]. split.
    + intros i k b Hi Hk Hb.
      replace (1 * (i + k * n) + b)%nat with (i + k * n)%nat by lia.
      replace (1 * (3 * i + k) + b)%nat with (3 * i + k)%nat by lia.
      apply Hnew; lia.
    + intros p Hp. rewrite Hold by (intros i k Hi Hk; nia).
      apply lookup_replicate_2. lia.
Qed.

(** X3: bytes after the three planes do not take part in the transform: on a
    buffer longer than [width * height * 3] samples, [triplet_to_planar]
    gives the planar form of the first [width * height * 3] samples, followed
    by zeros in place of the rest. *)
Theorem triplet_to_planar_padding (buffer : list byte) (width height bits_per_sample : Z) :
  0 ≤ width → 0 ≤ height →
  width * height * 3 * Z.of_nat (bytes_per_sample bits_per_sample)
    ≤ Z.of_nat (length buffer) →
  width * height * 3 * Z.of_nat (bytes_per_sample bits_per_sample) < SIZE_MODULUS →
  let used := Z.to_nat (width * height * 3 * Z.of_nat (bytes_per_sample bits_per_sample)) in
  ∃ planar,
    triplet_to_planar (take used buffer) width height bits_per_sample = Some planar
    ∧ triplet_to_planar buffer width height bits_per_sample
      = Some (planar ++ replicate (length buffer - used) Byte.x00).
Proof.
  intros Hw Hh Hlen Hmax used.
  assert (length (take used buffer) = used) as Hused by (rewrite length_take; lia).
  destruct (triplet_to_planar_bytes_padded (take used buffer) width height bits_per_sample)
    as (planar & Hplanar & Hplen & Hpbytes & _); [lia | lia | lia | lia |].
  destruct (triplet_to_planar_bytes_padded buffer width height bits_per_sample)
    as (out & Hout & Holen & Hobytes & Hzero); [lia..|].
  exists planar. split; [done|]. rewrite Hout. f_equal.
  set (unit := bytes_per_sample bits_per_sample) in *.
  set (n := Z.to_nat (width * height)) in *.
  assert (0 < unit)%nat as Hunit by (unfold unit, bytes_per_sample; case_decide; lia).
  assert (used = unit * (3 * n))%nat as Hused' by (unfold used, n; nia).
  apply list_eq. intros p.
  destruct (decide (p < used)%nat) as [Hp|Hp].
  - rewrite lookup_app_l by lia.
    destruct (plane_offset_decompose n unit p Hunit ltac:(lia))
      as (i & k & b & Hi & Hk & Hb & ->).
    rewrite Hobytes, Hpbytes by done.
    rewrite lookup_take_lt; [done|]. nia.
  - rewrite lookup_app_r by lia.
    destruct (decide (p < length buffer)%nat) as [Hp'|Hp'].
    + rewrite Hzero by lia. symmetry. apply lookup_replicate_2. lia.
    + rewrite lookup_ge_None_2 by lia. symmetry. apply lookup_ge_None_2.
      rewrite length_replicate. lia.
Qed.

(** ** The validator, whatever the decoder does *)

Section ValidatorRuns.
Context {ext : Externals}.

Lemma bind_lift_inl {A B} (what : exn) (k : A → M B) (fs : gmap string (list byte)) :
  bind (lift (inl what)) k fs = Run (Throw what) fs [].
Proof. reflexivity. Qed.

(** The comparison loop, on any two buffers: it ends with [true] after
    comparisons only, with [false] after comparisons and the value-mismatch
    line, or in an access out of bounds after comparisons only; it leaves the
    files alone. *)
Lemma compare_loop_shape (count : nat) (i : Z) (decoded original : list byte)
    (fs : gmap string (list byte)) :
  ∃ compared,
    compare_loop count i decoded original fs = Run (Ok true) fs (EvCompare <$> compared)
    ∨ compare_loop count i decoded original fs
      = Run (Ok false) fs ((EvCompare <$> compared) ++ [value_mismatch])
    ∨ compare_loop count i decoded original fs = Run Undefined fs (EvCompare <$> compared).
Proof.
  revert i. induction count as [|count IH]; intros i.
  - exists []. by left.
  - cbn [compare_loop]. rewrite bind_emit.
    destruct (vec_get decoded i) as [d|]; [|exists [i]; right; by right].
    change (defined (Some d)) with (ret d). rewrite bind_ret.
    destruct (vec_get original i) as [o|]; [|exists [i]; right; by right].
    change (defined (Some o)) with (ret o). rewrite bind_ret.
    destruct (decide (d ≠ o)).
    + exists [i]. right. left. reflexivity.
    + destruct (IH (size_t (i + 1))) as (compared & [-> | [-> | ->]]);
        exists (i :: compared); [by left | right; by left | right; by right].
Qed.

(** [test_by_decoding] as one case analysis on what the decoder does. *)
Lemma test_by_decoding_cases (encoded_source original_source : list byte)
    (fs : gmap string (list byte)) :
  test_by_decoding encoded_source original_source fs
  = match decoder_new encoded_source with
    | inl what => Run (Throw what) fs [EvTestByDecoding encoded_source original_source]
    | inr dec =>
        match destination_size dec with
        | inl what => Run (Throw what) fs [EvTestByDecoding encoded_source original_source]
        | inr size =>
            match decode dec (replicate (Z.to_nat size) Byte.x00) with
            | inl what =>
                Run (Throw what) fs
                  [EvTestByDecoding encoded_source original_source; EvClock;
                   EvDecode encoded_source]
            | inr decoded =>
                prepend [EvTestByDecoding encoded_source original_source; EvClock;
                         EvDecode encoded_source; EvClock]
                  (if decide (length decoded ≠ length original_source)
                   then Run (Ok false) fs [size_mismatch]
                   else if decide (near_lossless dec = 0)
                        then compare_loop (length original_source) 0 decoded
                               original_source fs
                        else Run (Ok true) fs [])
            end
        end
    end.
Proof.
  unfold test_by_decoding. rewrite bind_emit.
  destruct (decoder_new encoded_source) as [what|dec]; [done|]. rewrite bind_lift_inr.
  destruct (destination_size dec) as [what|size]; [done|].
  rewrite bind_lift_inr, !bind_emit.
  destruct (decode dec _) as [what|decoded]; [done|].
  rewrite bind_lift_inr, bind_emit.
  unfold prepend. cbn [run_outcome run_files run_trace app].
  repeat case_decide; try done.
Qed.

Lemma test_by_decoding_verdict (encoded_source original_source : list byte)
    (fs : gmap string (list byte)) :
  let r := test_by_decoding encoded_source original_source fs in
  run_files r = fs
  ∧ (run_outcome r = Ok true → ∀ text, EvPuts text ∉ run_trace r)
  ∧ (run_outcome r = Ok false →
       ∃ before,
         (run_trace r = before ++ [size_mismatch] ∨ run_trace r = before ++ [value_mismatch])
         ∧ ∀ text, EvPuts text ∉ before).
Proof.
  cbn zeta. rewrite test_by_decoding_cases.
  assert (∀ (compared : list Z) text, EvPuts text ∉ EvCompare <$> compared) as Hcompared.
  { intros compared text [i [? _]]%list_elem_of_fmap. discriminate. }
  assert (∀ (compared : list Z) text,
            EvPuts text ∉ [EvTestByDecoding encoded_source original_source; EvClock;
                           EvDecode encoded_source; EvClock] ++ (EvCompare <$> compared))
    as Hquiet.
  { intros compared text [Hin|Hin]%elem_of_app; [|by eapply Hcompared].
    repeat (apply elem_of_cons in Hin as [Hin|Hin]; [discriminate|]).
    by apply elem_of_nil in Hin. }
  destruct (decoder_new encoded_source) as [what|dec]; [done|].
  destruct (destination_size dec) as [what|size]; [done|].
  destruct (decode dec _) as [what|decoded]; [done|].
  case_decide.
  - split; [done|]. split; [done|]. intros _.
    eexists. split; [left; reflexivity|]. intros text. apply (Hquiet []).
  - case_decide.
    + destruct (compare_loop_shape (length original_source) 0 decoded original_source fs)
        as (compared & [-> | [-> | ->]]); unfold prepend;
        cbn [run_outcome run_files run_trace]; (split; [done|]); split.
      * intros _ text. apply Hquiet.
      * done.
      * done.
      * intros _. exists ([EvTestByDecoding encoded_source original_source; EvClock;
                          EvDecode encoded_source; EvClock] ++ (EvCompare <$> compared)).
        split; [right; by rewrite app_assoc | apply Hquiet].
      * done.
      * done.
    + split; [done|]. split; [|done]. intros _ text. apply (Hquiet []).
Qed.

Lemma printed_lines_app (a b : list event) :
  printed_lines (a ++ b) = printed_lines a ++ printed_lines b.
Proof. apply omap_app. Qed.

Lemma printed_lines_compare (compared : list Z) :
  printed_lines (EvCompare <$> compared) = [].
Proof. induction compared as [|i compared IH]; [reflexivity | exact IH]. Qed.

Lemma elem_of_printed_lines (e : event) (trace : list event) :
  e ∈ printed_lines trace ↔ e ∈ trace ∧ printed e = true.
Proof.
  unfold printed_lines. rewrite list_elem_of_omap. split.
  - intros (e' & Hin & He). destruct (printed e') eqn:Hprinted; [|discriminate].
    injection He as <-. by split.
  - intros [Hin Hprinted]. exists e. by rewrite Hprinted.
Qed.

(** The lines of one run of [test_by_decoding]: none when it returns [true],
    one mismatch line when it returns [false]. *)
Lemma test_by_decoding_lines (encoded_source original_source : list byte)
    (fs : gmap string (list byte)) :
  let r := test_by_decoding encoded_source original_source fs in
  (run_outcome r = Ok true → printed_lines (run_trace r) = [])
  ∧ (run_outcome r = Ok false →
       printed_lines (run_trace r) = [size_mismatch]
       ∨ printed_lines (run_trace r) = [value_mismatch]).
Proof.
  cbn zeta. rewrite test_by_decoding_cases.
  destruct (decoder_new encoded_source) as [what|dec]; [done|].
  destruct (destination_size dec) as [what|size]; [done|].
  destruct (decode dec _) as [what|decoded]; [done|].
  case_decide.
  - split; [done|]. intros _. by left.
  - case_decide.
    + destruct (compare_loop_shape (length original_source) 0 decoded original_source fs)
        as (compared & [-> | [-> | ->]]); unfold prepend;
        cbn [run_outcome run_files run_trace]; split; try done.
      * intros _. by rewrite printed_lines_app, printed_lines_compare.
      * intros _. right. by rewrite !printed_lines_app, printed_lines_compare.
    + split; [|done]. by intros _.
Qed.

(** X4: on every input and with every decoder, [test_by_decoding] leaves the
    files as they are, prints nothing when it returns [true], and when it
    returns [false] its last event is the one line it prints, which is the
    size-mismatch or the value-mismatch line. *)
Theorem test_by_decoding_verdict_reason (encoded_source original_source : list byte)
    (fs : gmap string (list byte)) :
  let r := test_by_decoding encoded_source original_source fs in
  run_files r = fs
  ∧ (run_outcome r = Ok true → ∀ text, EvPuts text ∉ run_trace r)
  ∧ (run_outcome r = Ok false →
       ∃ before,
         (run_trace r = before ++ [size_mismatch] ∨ run_trace r = before ++ [value_mismatch])
         ∧ ∀ text, EvPuts text ∉ before).
Proof. apply test_by_decoding_verdict. Qed.

(** The comparison loop on buffers that first differ at index [j]. *)
Lemma compare_loop_first_mismatch (decoded original : list byte)
    (fs : gmap string (list byte)) (j : nat) :
  length decoded = length original → Z.of_nat (length original) < SIZE_MODULUS →
  (j < length original)%nat →
  decoded !! j ≠ original !! j →
  (∀ j', (j' < j)%nat → decoded !! j' = original !! j') →
  ∀ (count i : nat), (i + count = length original)%nat → (i ≤ j)%nat →
    compare_loop count (Z.of_nat i) decoded original fs
    = Run (Ok false) fs
        ((EvCompare <$> (Z.of_nat <$> seq i (S j - i))) ++ [value_mismatch]).
Proof.
  intros Hlen Hmax Hj Hdiff Hsame.
  induction count as [|count IH]; intros i Hi Hij; [lia|].
  cbn [compare_loop]. rewrite bind_emit, !vec_get_nat.
  destruct (lookup_lt_is_Some_2 decoded i) as [d Hd]; [lia|].
  destruct (lookup_lt_is_Some_2 original i) as [o Ho]; [lia|].
  rewrite Hd. change (defined (Some d)) with (ret d). rewrite bind_ret.
  rewrite Ho. change (defined (Some o)) with (ret o). rewrite bind_ret.
  destruct (decide (i = j)) as [->|Hne].
  - rewrite decide_True by congruence.
    replace (S j - j)%nat with 1%nat by lia. reflexivity.
  - rewrite decide_False.
    2:{ intros Hdo. apply Hdo. specialize (Hsame i ltac:(lia)). congruence. }
    replace (size_t (Z.of_nat i + 1)) with (Z.of_nat (S i))
      by (rewrite size_t_small; unfold SIZE_MODULUS in *; lia).
    rewrite IH by lia. unfold prepend. cbn [run_outcome run_files run_trace].
    replace (S j - i)%nat with (S (S j - S i)) by lia. reflexivity.
Qed.

(** X5: in lossless mode and with equal sizes, [test_by_decoding] compares the
    bytes in index order and stops at the first pair that differs: when the
    buffers first differ at index [j], it compares the indices 0 to [j], prints
    the value-mismatch line and returns [false]; no later byte is looked at. *)
Theorem test_by_decoding_stops_at_first_mismatch (encoded_source original_source : list byte)
    (fs : gmap string (list byte)) (dec : decoder) (size : Z) (decoded : list byte)
    (j : nat) :
  decoder_new encoded_source = inr dec →
  destination_size dec = inr size →
  decode dec (replicate (Z.to_nat size) Byte.x00) = inr decoded →
  near_lossless dec = 0 →
  length decoded = length original_source →
  Z.of_nat (length original_source) < SIZE_MODULUS →
  (j < length original_source)%nat →
  decoded !! j ≠ original_source !! j →
  (∀ j', (j' < j)%nat → decoded !! j' = original_source !! j') →
  test_by_decoding encoded_source original_source fs
  = Run (Ok false) fs
      ([EvTestByDecoding encoded_source original_source; EvClock;
        EvDecode encoded_source; EvClock]
       ++ (EvCompare <$> (Z.of_nat <$> seq 0 (S j))) ++ [value_mismatch]).
Proof.
  intros Hnew Hsize Hdecode Hnear Hlen Hmax Hj Hdiff Hsame.
  rewrite test_by_decoding_cases, Hnew, Hsize, Hdecode.
  rewrite decide_False by (intros Hne; by apply Hne). rewrite decide_True by done.
  pose proof (compare_loop_first_mismatch decoded original_source fs j Hlen Hmax Hj Hdiff
                Hsame (length original_source) 0%nat eq_refl ltac:(lia)) as Hloop.
  change (Z.of_nat 0) with 0 in Hloop. by rewrite Hloop, Nat.sub_0_r.
Qed.

(** The comparison loop on two equal buffers. *)
Lemma compare_loop_all_equal (original : list byte) (fs : gmap string (list byte)) :
  Z.of_nat (length original) < SIZE_MODULUS →
  ∀ (count i : nat), (i + count = length original)%nat →
    compare_loop count (Z.of_nat i) original original fs
    = Run (Ok true) fs (EvCompare <$> (Z.of_nat <$> seq i count)).
Proof.
  intros Hmax. induction count as [|count IH]; intros i Hi; [done|].
  cbn [compare_loop]. rewrite bind_emit, !vec_get_nat.
  destruct (lookup_lt_is_Some_2 original i) as [o Ho]; [lia|].
  rewrite Ho. change (defined (Some o)) with (ret o). rewrite !bind_ret.
  rewrite decide_False by (intros Hne; by apply Hne).
  replace (size_t (Z.of_nat i + 1)) with (Z.of_nat (S i))
    by (rewrite size_t_small; unfold SIZE_MODULUS in *; lia).
  by rewrite IH by lia.
Qed.

(** X6: in lossless mode, a decoder that returns the reference buffer makes
    [test_by_decoding] compare every index once, from 0 up, and return
    [true]. *)
Theorem test_by_decoding_compares_all (encoded_source original_source : list byte)
    (fs : gmap string (list byte)) (dec : decoder) (size : Z) :
  decoder_new encoded_source = inr dec →
  destination_size dec = inr size →
  decode dec (replicate (Z.to_nat size) Byte.x00) = inr original_source →
  near_lossless dec = 0 →
  Z.of_nat (length original_source) < SIZE_MODULUS →
  test_by_decoding encoded_source original_source fs
  = Run (Ok true) fs
      ([EvTestByDecoding encoded_source original_source; EvClock;
        EvDecode encoded_source; EvClock]
       ++ (EvCompare <$> (Z.of_nat <$> seq 0 (length original_source)))).
Proof.
  intros Hnew Hsize Hdecode Hnear Hmax.
  rewrite test_by_decoding_cases, Hnew, Hsize, Hdecode.
  rewrite decide_False by (intros Hne; by apply Hne). rewrite decide_True by done.
  pose proof (compare_loop_all_equal original_source fs Hmax (length original_source) 0%nat
                eq_refl) as Hloop.
  change (Z.of_nat 0) with 0 in Hloop. by rewrite Hloop.
Qed.

End ValidatorRuns.

(** ** One check, step by step *)

Section CheckFileRuns.
Context {ext : Externals}.

Lemma bind_throw {A B} (m : M A) (k : A → M B) (fs fs1 : gmap string (list byte))
    (what : exn) (tr1 : list event) :
  m fs = Run (Throw what) fs1 tr1 → bind m k fs = Run (Throw what) fs1 tr1.
Proof. intros Hm. by rewrite (bind_run _ _ _ _ _ _ Hm). Qed.

(** [check_file] as one case analysis on what the loader, the encoder and
    the output stream do. *)
Lemma check_file_cases (source_filename : string) (mode : interleave_mode) (color : bool)
    (fs : gmap string (list byte)) :
  check_file source_filename mode color fs
  = match run_outcome (read_anymap_reference_file source_filename mode fs) with
    | Ok reference_file =>
        prepend [EvOpen source_filename]
          match encoder_configure
                  {| fi_width := width reference_file;
                     fi_height := height reference_file;
                     fi_bits_per_sample := bits_per_sample reference_file;
                     fi_component_count := component_count reference_file |} mode with
          | inl what => Run (Throw what) fs []
          | inr enc =>
              match estimated_destination_size enc with
              | inl what => Run (Throw what) fs []
              | inr estimate =>
                  prepend [EvClock; EvEncode mode (image_data reference_file)]
                    match encode enc (replicate (Z.to_nat estimate) Byte.x00)
                            (image_data reference_file) with
                    | inl what => Run (Throw what) fs []
                    | inr (destination, encoded_size) =>
                        let bits := resize (Z.to_nat encoded_size) Byte.x00 destination in
                        let output := generate_output_filename source_filename mode in
                        prepend [EvClock]
                          (if writable output
                           then
                             let t := test_by_decoding bits (image_data reference_file)
                                        (<[output := bits]> fs) in
                             prepend [EvWrite output bits]
                               match run_outcome t with
                               | Ok result =>
                                   Run (Ok result) (run_files t)
                                     (run_trace t
                                      ++ [EvPutsInfo
                                            (Z.of_nat (length (image_data reference_file)))
                                            encoded_size (interleave_mode_to_string mode)
                                            (if color then 6 else 4)])
                               | Throw what => Run (Throw what) (run_files t) (run_trace t)
                               | Undefined => Run Undefined (run_files t) (run_trace t)
                               end
                           else Run (Throw "ios_base::failure") fs [])
                    end
              end
          end
    | Throw what => Run (Throw what) fs [EvOpen source_filename]
    | Undefined => Run Undefined fs [EvOpen source_filename]
    end.
Proof.
  unfold check_file.
  destruct (read_anymap_reference_file_run source_filename mode fs) as [o Hread].
  rewrite (bind_run _ _ _ _ _ _ Hread), Hread. cbn [run_outcome].
  destruct o as [reference_file| |]; [|done..]. f_equal.
  destruct (encoder_configure _ _) as [what|enc]; [done|]. rewrite bind_lift_inr.
  destruct (estimated_destination_size enc) as [what|estimate]; [done|].
  rewrite bind_lift_inr, !bind_emit.
  destruct (encode enc _ _) as [what|[destination encoded_size]]; [done|].
  rewrite bind_lift_inr. cbn beta iota zeta. rewrite bind_emit.
  unfold prepend at 1 3. cbn [run_outcome run_files run_trace]. f_equal. f_equal.
  unfold write_file. destruct (writable _); [|done].
  erewrite bind_run by reflexivity. cbn beta iota. f_equal.
Qed.

(** The events of one run of [test_by_decoding]. *)
Lemma test_by_decoding_events (encoded_source original_source : list byte)
    (fs : gmap string (list byte)) (e : event) :
  e ∈ run_trace (test_by_decoding encoded_source original_source fs) →
  e = EvTestByDecoding encoded_source original_source ∨ e = EvClock
  ∨ e = EvDecode encoded_source ∨ (∃ i, e = EvCompare i)
  ∨ e = size_mismatch ∨ e = value_mismatch.
Proof.
  rewrite test_by_decoding_cases.
  assert (∀ compared : list Z, e ∈ EvCompare <$> compared → ∃ i, e = EvCompare i) as Hcompared.
  { intros compared (i & -> & _)%list_elem_of_fmap. by exists i. }
  destruct (decoder_new encoded_source) as [what|dec].
  { cbn. rewrite list_elem_of_singleton. auto. }
  destruct (destination_size dec) as [what|size].
  { cbn. rewrite list_elem_of_singleton. auto. }
  destruct (decode dec _) as [what|decoded].
  { cbn. rewrite !elem_of_cons, elem_of_nil. intuition. }
  unfold prepend. cbn [run_trace]. rewrite elem_of_app, !elem_of_cons, elem_of_nil.
  intros [Hentry|Hrest]; [intuition|].
  case_decide.
  { cbn in Hrest. apply list_elem_of_singleton in Hrest. auto 6. }
  case_decide.
  2:{ cbn in Hrest. by apply elem_of_nil in Hrest. }
  destruct (compare_loop_shape (length original_source) 0 decoded original_source fs)
    as (compared & [Hc | [Hc | Hc]]); rewrite Hc in Hrest; cbn [run_trace] in Hrest.
  - apply Hcompared in Hrest. auto 6.
  - apply elem_of_app in Hrest as [Hrest|Hrest].
    + apply Hcompared in Hrest. auto 6.
    + apply list_elem_of_singleton in Hrest. auto 6.
  - apply Hcompared in Hrest. auto 6.
Qed.

(** X7: one run of [check_file], whatever its outcome, changes no file but the
    output file of its source and mode; and when it returns a result, the
    output file holds the bitstream that the run wrote. *)
Theorem check_file_touches_only_output (source_filename : string) (mode : interleave_mode)
    (color : bool) (fs : gmap string (list byte)) :
  let r := check_file source_filename mode color fs in
  let output := generate_output_filename source_filename mode in
  (∀ name, name ≠ output → run_files r !! name = fs !! name)
  ∧ (∀ b, run_outcome r = Ok b →
       ∃ bits, run_files r !! output = Some bits ∧ EvWrite output bits ∈ run_trace r).
Proof.
  cbn zeta. rewrite check_file_cases.
  destruct (run_outcome (read_anymap_reference_file _ _ _)) as [reference_file| |];
    [|done..].
  destruct (encoder_configure _ _) as [what|enc]; [done|].
  destruct (estimated_destination_size enc) as [what|estimate]; [done|].
  destruct (encode enc _ _) as [what|[destination encoded_size]]; [done|].
  cbn zeta. destruct (writable _); [|done].
  match goal with
  | |- context [test_by_decoding ?bits ?image ?fs'] =>
      destruct (test_by_decoding_verdict bits image fs') as (Hfiles & _);
      cbn zeta in Hfiles;
      destruct (run_outcome (test_by_decoding bits image fs')) as [result| |];
      unfold prepend; cbn [run_outcome run_files run_trace]; rewrite Hfiles
  end.
  - split; [intros name Hname; by rewrite lookup_insert_ne|].
    intros b _. eexists. split; [apply lookup_insert_eq|].
    cbn. do 4 apply list_elem_of_further. apply list_elem_of_here.
  - split; [intros name Hname; by rewrite lookup_insert_ne | done].
  - split; [intros name Hname; by rewrite lookup_insert_ne | done].
Qed.

(** X8: whatever [check_file] validates, it has encoded and written before:
    every entry into the validator is with the buffer that was handed to the
    encoder in the requested mode and with the bitstream that was written to
    the output file, which is what that file holds when the run ends. *)
Theorem check_file_validates_what_it_wrote (source_filename : string)
    (mode : interleave_mode) (color : bool) (fs : gmap string (list byte))
    (encoded_source original_source : list byte) :
  let r := check_file source_filename mode color fs in
  let output := generate_output_filename source_filename mode in
  EvTestByDecoding encoded_source original_source ∈ run_trace r →
  EvEncode mode original_source ∈ run_trace r
  ∧ EvWrite output encoded_source ∈ run_trace r
  ∧ run_files r !! output = Some encoded_source.
Proof.
  cbn zeta. rewrite check_file_cases.
  destruct (run_outcome (read_anymap_reference_file _ _ _)) as [reference_file| |].
  2,3: cbn; rewrite list_elem_of_singleton; intros [=].
  destruct (encoder_configure _ _) as [what|enc].
  { cbn. rewrite list_elem_of_singleton. intros [=]. }
  destruct (estimated_destination_size enc) as [what|estimate].
  { cbn. rewrite list_elem_of_singleton. intros [=]. }
  destruct (encode enc _ _) as [what|[destination encoded_size]].
  { cbn. rewrite !elem_of_cons, elem_of_nil. intros [|[|[|[]]]]; discriminate. }
  cbn zeta. destruct (writable _).
  2:{ cbn. rewrite !elem_of_cons, elem_of_nil. intros [|[|[|[|[]]]]]; discriminate. }
  match goal with
  | |- context [test_by_decoding ?bits ?image ?fs'] =>
      destruct (test_by_decoding_verdict bits image fs') as (Hfiles & _);
      pose proof (test_by_decoding_events bits image fs'
                    (EvTestByDecoding encoded_source original_source)) as Hevents;
      cbn zeta in Hfiles;
      assert (EvTestByDecoding encoded_source original_source
                ∈ run_trace (test_by_decoding bits image fs') →
              encoded_source = bits ∧ original_source = image) as Hentry
  end.
  { intros Hin. destruct (Hevents Hin) as [[= -> ->] | [? | [? | [[i ?] | [? | ?]]]]];
      done. }
  clear Hevents.
  destruct (run_outcome (test_by_decoding _ _ _)) as [result| |];
    unfold prepend; cbn [run_outcome run_files run_trace app]; rewrite Hfiles;
    intros Hin;
    (assert (encoded_source = resize (Z.to_nat encoded_size) Byte.x00 destination
             ∧ original_source = image_data reference_file) as [-> ->];
     [apply Hentry; rewrite !elem_of_cons, ?elem_of_app, ?list_elem_of_singleton in Hin;
      repeat match type of Hin with
        | _ = _ ∨ _ => destruct Hin as [Hin|Hin]; [discriminate|]
        end;
      first [exact Hin | destruct Hin as [Hin|Hin]; [exact Hin | discriminate]]|]);
    (split; [repeat constructor|]); (split; [repeat constructor|]); apply lookup_insert_eq.
Qed.

(** The lines of one run of [check_file] that returns a result. *)
Lemma check_file_lines (source_filename : string) (mode : interleave_mode)
    (color : bool) (fs : gmap string (list byte)) :
  let r := check_file source_filename mode color fs in
  (run_outcome r = Ok true →
     ∃ o n, printed_lines (run_trace r)
            = [EvPutsInfo o n (interleave_mode_to_string mode) (if color then 6 else 4)])
  ∧ (run_outcome r = Ok false →
       ∃ mismatch o n,
         (mismatch = size_mismatch ∨ mismatch = value_mismatch)
         ∧ printed_lines (run_trace r)
           = [mismatch;
              EvPutsInfo o n (interleave_mode_to_string mode) (if color then 6 else 4)]).
Proof.
  cbn zeta. rewrite check_file_cases.
  destruct (run_outcome (read_anymap_reference_file _ _ _)) as [reference_file| |];
    [|done..].
  destruct (encoder_configure _ _) as [what|enc]; [done|].
  destruct (estimated_destination_size enc) as [what|estimate]; [done|].
  destruct (encode enc _ _) as [what|[destination encoded_size]]; [done|].
  cbn zeta. destruct (writable _); [|done].
  match goal with
  | |- context [test_by_decoding ?bits ?image ?fs'] =>
      destruct (test_by_decoding_lines bits image fs') as (Htrue & Hfalse);
      cbn zeta in Htrue, Hfalse;
      destruct (run_outcome (test_by_decoding bits image fs')) as [result| |];
      unfold prepend; cbn [run_outcome run_files run_trace]; [|done..]
  end.
  split.
  - intros [= ->]. eexists _, _.
    rewrite !printed_lines_app, (Htrue eq_refl). reflexivity.
  - intros [= ->].
    destruct (Hfalse eq_refl) as [Hline | Hline]; eexists _, _, _;
      rewrite !printed_lines_app, Hline; (split; [|reflexivity]); [by left | by right].
Qed.

(** X9: the verdict of [check_file] and the lines it prints.  A check that
    returns [true] prints one line, its Info line, and so no mismatch line; a
    check that returns [false] prints two lines, the size-mismatch or the
    value-mismatch line and then its Info line.  The Info line names the mode
    of the check. *)
Theorem check_file_verdict (source_filename : string) (mode : interleave_mode)
    (color : bool) (fs : gmap string (list byte)) :
  let r := check_file source_filename mode color fs in
  (run_outcome r = Ok true →
     ∃ o n, printed_lines (run_trace r)
            = [EvPutsInfo o n (interleave_mode_to_string mode) (if color then 6 else 4)])
  ∧ (run_outcome r = Ok false →
       ∃ mismatch o n,
         (mismatch = size_mismatch ∨ mismatch = value_mismatch)
         ∧ printed_lines (run_trace r)
           = [mismatch;
              EvPutsInfo o n (interleave_mode_to_string mode) (if color then 6 else 4)]).
Proof. apply check_file_lines. Qed.

(** X10: a check that returns a result ends with the Info line, printed once,
    and the line reports the run: the size of the buffer that was encoded,
    the size of the bitstream that was written to the output file, the name
    of the mode, and a label width of 6 in colour runs and 4 otherwise. *)
Theorem check_file_report (source_filename : string) (mode : interleave_mode)
    (color : bool) (fs : gmap string (list byte)) (b : bool) :
  run_outcome (check_file source_filename mode color fs) = Ok b →
  ∃ before image bits encoded_size,
    run_trace (check_file source_filename mode color fs)
    = before ++ [EvPutsInfo (Z.of_nat (length image)) encoded_size
                   (interleave_mode_to_string mode) (if color then 6 else 4)]
    ∧ EvEncode mode image ∈ before
    ∧ EvWrite (generate_output_filename source_filename mode) bits ∈ before
    ∧ length bits = Z.to_nat encoded_size
    ∧ ∀ o n label w, EvPutsInfo o n label w ∉ before.
Proof.
  rewrite check_file_cases.
  destruct (run_outcome (read_anymap_reference_file _ _ _)) as [reference_file| |];
    [|done..].
  destruct (encoder_configure _ _) as [what|enc]; [done|].
  destruct (estimated_destination_size enc) as [what|estimate]; [done|].
  destruct (encode enc _ _) as [what|[destination encoded_size]]; [done|].
  cbn zeta. destruct (writable _); [|done].
  match goal with
  | |- context [test_by_decoding ?bits ?image ?fs'] =>
      pose proof (test_by_decoding_events bits image fs') as Hevents;
      destruct (run_outcome (test_by_decoding bits image fs')) as [result| |];
      unfold prepend; cbn [run_outcome run_files run_trace app]; [|done..]
  end.
  intros _.
  eexists (_ :: _ :: _ :: _ :: _ :: _), (image_data reference_file), _, encoded_size.
  split; [reflexivity|]. split; [repeat constructor|]. split; [repeat constructor|].
  split; [apply length_resize|].
  intros o n label w. rewrite !elem_of_cons.
  intros [|[|[|[|[|Hin]]]]]; try done.
  destruct (Hevents _ Hin) as [? | [? | [? | [[i ?] | [? | ?]]]]]; done.
Qed.

End CheckFileRuns.

(** ** The output file, for every source file *)

Lemma string_length_app (a b : string) :
  String.length (a +:+ b) = (String.length a + String.length b)%nat.
Proof.
  induction a as [|x a IH]; [done|].
  rewrite string_app_cons. cbn [String.length]. by rewrite IH.
Qed.

Lemma substring_app_prefix (a b : string) :
  String.substring 0 (String.length (a +:+ b) - String.length b) (a +:+ b) = a.
Proof.
  rewrite string_length_app. replace (String.length a + String.length b - String.length b)%nat
    with (String.length a) by lia.
  induction a as [|x a IH]; [by destruct b|].
  rewrite string_app_cons.
  change (String x (String.substring 0 (String.length a) (a +:+ b)) = String x a).
  by rewrite IH.
Qed.

(** The directory and the filename of a path that is the directory of [p]
    and a name without separator. *)
Lemma remove_filename_app (p name : string) :
  path.rsplit "/" name = None →
  path.remove_filename (path.remove_filename p +:+ name) = path.remove_filename p.
Proof.
  intros Hname. unfold path.remove_filename.
  destruct (path.rsplit "/" p) as [[dir f]|].
  - rewrite string_app_assoc. change ("/" +:+ name) with (String "/" name).
    by rewrite (rsplit_app_sep "/" dir name Hname).
  - change ("" +:+ name) with name. by rewrite Hname.
Qed.

(** The extension of a path whose filename ends in [.jls] after a name
    that is not empty. *)
Lemma extension_jls (p name : string) :
  name ≠ "" → path.filename p = name +:+ ".jls" → path.extension p = ".jls".
Proof.
  intros Hname Hfile. unfold path.extension. rewrite Hfile.
  change (name +:+ ".jls") with (name +:+ String "." "jls").
  pose proof (rsplit_app_sep "." name "jls" eq_refl) as Hsplit.
  rewrite decide_False.
  2:{ intros [Heq|Heq]; rewrite Heq in Hsplit; vm_compute in Hsplit; congruence. }
  rewrite Hsplit. by rewrite decide_False.
Qed.

(** What [replace_extension] leaves of a path that is a directory and a
    name without separator, the name not being [.] or [..]: the directory and
    a name without separator that is empty only if the name is. *)
Lemma replace_extension_shape (dir name ext : string) :
  path.filename (dir +:+ name) = name →
  path.rsplit "/" name = None →
  name ≠ "." → name ≠ ".." → name ≠ "" →
  ∃ kept, kept ≠ "" ∧ path.rsplit "/" kept = None
    ∧ path.replace_extension (dir +:+ name) (String "." ext)
      = dir +:+ kept +:+ String "." ext.
Proof.
  intros Hfile Hsep Hdot Hdotdot Hempty. unfold path.replace_extension, path.extension.
  rewrite Hfile. rewrite decide_False by (by intros [?|?]).
  destruct (path.rsplit "." name) as [[before after]|] eqn:Hsplit.
  - case_decide as Hbefore.
    + exists name. split; [done|]. split; [done|].
      cbn [String.length]. by rewrite Nat.sub_0_r, substring_all, string_app_assoc.
    + apply rsplit_Some in Hsplit as [-> _].
      exists before. split; [done|]. split; [by apply rsplit_prefix_None in Hsep|].
      change ("." +:+ after) with (String "." after).
      rewrite <- (string_app_assoc dir before (String "." after)), substring_app_prefix.
      by rewrite string_app_assoc.
  - exists name. split; [done|]. split; [done|].
    cbn [String.length]. by rewrite Nat.sub_0_r, substring_all, string_app_assoc.
Qed.

(** The name that [generate_output_filename] gives, for any source file: the
    directory of the source file, a name that is not empty, and [.jls]. *)
Lemma generate_output_filename_shape (source_filename : string) (mode : interleave_mode) :
  ∃ kept, kept ≠ "" ∧ path.rsplit "/" kept = None
    ∧ generate_output_filename source_filename mode
      = path.remove_filename source_filename +:+ kept +:+ ".jls".
Proof.
  unfold generate_output_filename.
  set (name := path.stem source_filename +:+ "-" +:+ interleave_mode_to_string mode).
  assert (path.rsplit "/" name = None) as Hsep.
  { apply rsplit_app_None; [apply stem_no_separator | by destruct mode]. }
  assert (path.rsplit "-" name = Some (path.stem source_filename,
                                       interleave_mode_to_string mode)) as Hhyphen.
  { unfold name. change ("-" +:+ ?m) with (String "-" m).
    apply rsplit_app_sep. by destruct mode. }
  destruct (replace_filename_plain source_filename name Hsep) as [-> Hfile].
  apply replace_extension_shape; try done.
  all: intros Heq; rewrite Heq in Hhyphen; discriminate.
Qed.

Lemma generate_output_filename_extension (source_filename : string) (mode : interleave_mode) :
  path.extension (generate_output_filename source_filename mode) = ".jls"
  ∧ path.remove_filename (generate_output_filename source_filename mode)
    = path.remove_filename source_filename.
Proof.
  destruct (generate_output_filename_shape source_filename mode)
    as (kept & Hkept & Hsep & ->).
  assert (path.rsplit "/" (kept +:+ ".jls") = None) as Hsep'
    by (by apply rsplit_app_None).
  split.
  - apply (extension_jls _ kept Hkept).
    by destruct (replace_filename_plain source_filename _ Hsep') as [_ ->].
  - by apply remove_filename_app.
Qed.

(** X11: for every source file and mode, the output file has the extension
    [.jls] and lies in the directory of the source file. *)
Theorem generate_output_filename_jls (source_filename : string) (mode : interleave_mode) :
  path.extension (generate_output_filename source_filename mode) = ".jls"
  ∧ path.remove_filename (generate_output_filename source_filename mode)
    = path.remove_filename source_filename.
Proof. apply generate_output_filename_extension. Qed.


(** ** Files that the driver leaves alone *)

Section KeptFiles.
Context {ext : Externals}.

Lemma check_file_other_files (source_filename : string) (mode : interleave_mode)
    (color : bool) (fs : gmap string (list byte)) (name : string) :
  name ≠ generate_output_filename source_filename mode →
  run_files (check_file source_filename mode color fs) !! name = fs !! name.
Proof.
  intros Hname. rewrite check_file_cases.
  destruct (run_outcome (read_anymap_reference_file _ _ _)) as [reference_file| |];
    [|done..].
  destruct (encoder_configure _ _) as [what|enc]; [done|].
  destruct (estimated_destination_size enc) as [what|estimate]; [done|].
  destruct (encode enc _ _) as [what|[destination encoded_size]]; [done|].
  cbn zeta. destruct (writable _); [|done].
  match goal with
  | |- context [test_by_decoding ?bits ?image ?fs'] =>
      destruct (test_by_decoding_verdict bits image fs') as (Hfiles & _);
      cbn zeta in Hfiles;
      destruct (run_outcome (test_by_decoding bits image fs')) as [result| |];
      unfold prepend; cbn [run_outcome run_files run_trace]; rewrite Hfiles
  end; by rewrite lookup_insert_ne.
Qed.

(** A file whose extension is not [.jls] is not the output file of any
    check. *)
Lemma check_file_keeps (source_filename : string) (mode : interleave_mode)
    (color : bool) (fs : gmap string (list byte)) (name : string) :
  path.extension name ≠ ".jls" →
  run_files (check_file source_filename mode color fs) !! name = fs !! name.
Proof.
  intros Hext. apply check_file_other_files. intros ->.
  by destruct (generate_output_filename_extension source_filename mode) as [? _].
Qed.

(** [check_color_file] as the three checks in a row. *)
Lemma check_color_file_cases (source_filename : string) (fs : gmap string (list byte)) :
  check_color_file source_filename fs
  = let r_none := check_file source_filename none true fs in
    match run_outcome r_none with
    | Ok true =>
        let r_line := check_file source_filename line true (run_files r_none) in
        prepend (run_trace r_none)
          match run_outcome r_line with
          | Ok true =>
              prepend (run_trace r_line)
                (check_file source_filename sample true (run_files r_line))
          | _ => r_line
          end
    | _ => r_none
    end.
Proof.
  cbn zeta. unfold check_color_file.
  destruct (check_file source_filename none true fs) as [o1 fs1 tr1] eqn:H1.
  erewrite bind_run by exact H1. cbn [run_outcome run_files run_trace].
  destruct o1 as [[|]| |]; cbn [negb]; [| |reflexivity|reflexivity].
  - f_equal.
    destruct (check_file source_filename line true fs1) as [o2 fs2 tr2] eqn:H2.
    erewrite bind_run by exact H2. cbn [run_outcome run_files run_trace].
    destruct o2 as [[|]| |]; cbn [negb]; [reflexivity| |reflexivity|reflexivity].
    unfold prepend, ret. cbn [run_outcome run_files run_trace]. by rewrite app_nil_r.
  - unfold prepend, ret. cbn [run_outcome run_files run_trace]. by rewrite app_nil_r.
Qed.

Lemma check_color_file_keeps (source_filename : string) (fs : gmap string (list byte))
    (name : string) :
  path.extension name ≠ ".jls" →
  run_files (check_color_file source_filename fs) !! name = fs !! name.
Proof.
  intros Hext. rewrite check_color_file_cases. cbn zeta.
  pose proof (check_file_keeps source_filename none true fs name Hext) as H1.
  destruct (check_file source_filename none true fs) as [o1 fs1 tr1].
  cbn [run_outcome run_files run_trace] in *.
  destruct o1 as [[|]| |]; [|exact H1..].
  pose proof (check_file_keeps source_filename line true fs1 name Hext) as H2.
  destruct (check_file source_filename line true fs1) as [o2 fs2 tr2].
  unfold prepend at 1. cbn [run_outcome run_files run_trace] in *.
  destruct o2 as [[|]| |]; cbn [run_files]; [|by rewrite H2..].
  unfold prepend. cbn [run_files]. by rewrite check_file_keeps, H2.
Qed.

(** X12: colour files: a file whose extension is not [.jls] comes out of
    [check_color_file] as it went in, so that the three modes read the same
    reference file, whichever output files the earlier modes wrote. *)
Theorem check_color_file_keeps_inputs (source_filename : string)
    (fs : gmap string (list byte)) (name : string) :
  path.extension name ≠ ".jls" →
  let r_none := check_file source_filename none true fs in
  let r_line := check_file source_filename line true (run_files r_none) in
  run_files r_none !! name = fs !! name
  ∧ run_files r_line !! name = fs !! name
  ∧ run_files (check_color_file source_filename fs) !! name = fs !! name.
Proof.
  intros Hext r_none r_line. split; [by apply check_file_keeps|]. split.
  - unfold r_line. rewrite check_file_keeps by exact Hext. by apply check_file_keeps.
  - by apply check_color_file_keeps.
Qed.

Lemma main_loop_keeps (entries : list string) (fs : gmap string (list byte))
    (name : string) :
  path.extension name ≠ ".jls" →
  run_files (main_loop entries fs) !! name = fs !! name.
Proof.
  intros Hext. revert fs. induction entries as [|entry rest IH]; intros fs; [reflexivity|].
  cbn [main_loop]. cbn zeta.
  destruct (bool_decide (path.extension entry = ".pgm") || bool_decide (path.extension entry = ".ppm"));
    [|apply IH].
  unfold puts. rewrite bind_emit. unfold prepend at 1. cbn [run_files].
  set (check := if bool_decide (path.extension entry = ".pgm")
                then check_file entry none false else check_color_file entry).
  assert (run_files (check fs) !! name = fs !! name) as Hcheck.
  { unfold check. destruct (bool_decide _);
      [by apply check_file_keeps | by apply check_color_file_keeps]. }
  destruct (check fs) as [o fs1 tr1] eqn:Hrun. cbn [run_files] in Hcheck.
  erewrite bind_run by exact Hrun.
  destruct o as [result| |]; [|exact Hcheck..].
  rewrite bind_emit. unfold prepend. cbn [run_files].
  destruct result; cbn [negb]; [by rewrite IH | exact Hcheck].
Qed.

(** X13: the whole program changes no file whose extension is not [.jls]: no
    reference image, whether it is tested or not, and no other file of the
    directory; what it writes is [.jls] files. *)
Theorem main_keeps_inputs (argv : list string) (fs : gmap string (list byte))
    (name : string) :
  path.extension name ≠ ".jls" →
  run_files (main argv fs) !! name = fs !! name.
Proof.
  intros Hext. unfold main, try_catch.
  case_decide; [reflexivity|].
  destruct (argv !! 1%nat) as [directory|]; [|reflexivity].
  change (defined (Some directory)) with (ret directory). rewrite bind_ret, bind_emit.
  unfold prepend at 1. cbn [run_outcome run_files run_trace].
  erewrite (bind_run _ _ fs fs
              (match directory_entries fs directory with
               | inl what => Throw what
               | inr entries => Ok entries
               end) [])
    by (cbn beta; by destruct (directory_entries fs directory)).
  destruct (directory_entries fs directory) as [what|entries]; [reflexivity|].
  rewrite prepend_nil.
  pose proof (main_loop_keeps entries fs name Hext) as Hloop.
  destruct (main_loop entries fs) as [o fs1 tr1]. cbn [run_outcome run_files] in *.
  destruct o; exact Hloop.
Qed.

End KeptFiles.

(** ** The walk over the directory *)

Section Walk.
Context {ext : Externals}.

(** One step of the loop of [main]. *)
Lemma main_loop_cons (entry : string) (rest : list string) (fs : gmap string (list byte)) :
  main_loop (entry :: rest) fs
  = if bool_decide (path.extension entry = ".pgm") || bool_decide (path.extension entry = ".ppm")
    then
      let c := (if bool_decide (path.extension entry = ".pgm")
                then check_file entry none false else check_color_file entry) fs in
      prepend [EvPuts ("Checking file: " +:+ entry)]
        match run_outcome c with
        | Ok true =>
            prepend (run_trace c ++ [EvPuts " Status: Passed"]) (main_loop rest (run_files c))
        | Ok false =>
            Run (Ok EXIT_FAILURE) (run_files c) (run_trace c ++ [EvPuts " Status: Failed"])
        | Throw what => Run (Throw what) (run_files c) (run_trace c)
        | Undefined => Run Undefined (run_files c) (run_trace c)
        end
    else main_loop rest fs.
Proof.
  cbn [main_loop]. cbn zeta.
  destruct (bool_decide (path.extension entry = ".pgm") || bool_decide (path.extension entry = ".ppm"));
    [|reflexivity].
  unfold puts. rewrite bind_emit. f_equal.
  set (check := if bool_decide (path.extension entry = ".pgm")
                then check_file entry none false else check_color_file entry).
  destruct (check fs) as [o fs1 tr1] eqn:Hrun.
  erewrite bind_run by exact Hrun. cbn [run_outcome run_files run_trace].
  destruct o as [[|]| |]; [| |reflexivity..]; rewrite bind_emit; cbn [negb];
    unfold prepend, ret; cbn [run_outcome run_files run_trace].
  - by rewrite <- app_assoc.
  - by rewrite app_nil_r.
Qed.

Lemma prepend_prepend {A} (t1 t2 : list event) (r : run A) :
  prepend t1 (prepend t2 r) = prepend (t1 ++ t2) r.
Proof. unfold prepend. cbn [run_outcome run_files run_trace]. by rewrite app_assoc. Qed.

(** X14: the walk over a list of entries followed by more entries: when the
    walk over the first entries ends with [EXIT_SUCCESS] it goes on with the
    others, on the files as they are then; when it ends in any other way, that
    is the end of the whole walk, and none of the other entries is looked
    at. *)
Theorem main_loop_app (entries more : list string) (fs : gmap string (list byte)) :
  main_loop (entries ++ more) fs
  = let r := main_loop entries fs in
    match run_outcome r with
    | Ok code =>
        if decide (code = EXIT_SUCCESS)
        then prepend (run_trace r) (main_loop more (run_files r))
        else r
    | _ => r
    end.
Proof.
  revert fs. induction entries as [|entry rest IH]; intros fs.
  { cbn [app]. cbn. by rewrite prepend_nil. }
  cbn [app]. rewrite !main_loop_cons.
  destruct (bool_decide (path.extension entry = ".pgm") || bool_decide (path.extension entry = ".ppm"));
    [|apply IH].
  cbn zeta.
  set (check := if bool_decide (path.extension entry = ".pgm")
                then check_file entry none false else check_color_file entry).
  destruct (check fs) as [o fs1 tr1]. cbn [run_outcome run_files run_trace].
  destruct o as [[|]| |]; [|reflexivity..].
  rewrite IH. cbn zeta.
  destruct (main_loop rest fs1) as [o2 fs2 tr2].
  unfold prepend. cbn [run_outcome run_files run_trace].
  destruct o2 as [code| |]; [|reflexivity..].
  case_decide; cbn [run_outcome run_files run_trace]; [|reflexivity].
  f_equal. cbn [app]. f_equal. repeat rewrite <- app_assoc. reflexivity.
Qed.



(** A colour file that passes has passed in the three modes. *)
Lemma check_color_file_true_runs (source_filename : string) (fs : gmap string (list byte)) :
  run_outcome (check_color_file source_filename fs) = Ok true →
  let r_none := check_file source_filename none true fs in
  let r_line := check_file source_filename line true (run_files r_none) in
  let r_sample := check_file source_filename sample true (run_files r_line) in
  run_outcome r_none = Ok true ∧ run_outcome r_line = Ok true
  ∧ run_outcome r_sample = Ok true
  ∧ run_trace (check_color_file source_filename fs)
    = run_trace r_none ++ run_trace r_line ++ run_trace r_sample.
Proof.
  rewrite check_color_file_cases. cbn zeta.
  destruct (check_file source_filename none true fs) as [o1 fs1 tr1].
  cbn [run_outcome run_files run_trace].
  destruct o1 as [[|]| |]; [|intros [=]..].
  destruct (check_file source_filename line true fs1) as [o2 fs2 tr2].
  unfold prepend at 1 2. cbn [run_outcome run_files run_trace].
  destruct o2 as [[|]| |]; cbn [run_outcome run_files run_trace]; [|intros [=]..].
  intros Hsample. done.
Qed.

(** The lines of a colour check that passes: the three Info lines. *)
Lemma check_color_file_true_lines (source_filename : string) (fs : gmap string (list byte)) :
  run_outcome (check_color_file source_filename fs) = Ok true →
  ∃ o1 n1 o2 n2 o3 n3,
    printed_lines (run_trace (check_color_file source_filename fs))
    = [EvPutsInfo o1 n1 "none" 6; EvPutsInfo o2 n2 "line" 6; EvPutsInfo o3 n3 "sample" 6].
Proof.
  intros Htrue.
  destruct (check_color_file_true_runs source_filename fs Htrue) as (H1 & H2 & H3 & ->).
  destruct (check_file_lines source_filename none true fs) as [Hl1 _].
  destruct (Hl1 H1) as (o1 & n1 & Hp1).
  destruct (check_file_lines source_filename line true
              (run_files (check_file source_filename none true fs))) as [Hl2 _].
  destruct (Hl2 H2) as (o2 & n2 & Hp2).
  destruct (check_file_lines source_filename sample true
              (run_files (check_file source_filename line true
                            (run_files (check_file source_filename none true fs)))))
    as [Hl3 _].
  destruct (Hl3 H3) as (o3 & n3 & Hp3).
  exists o1, n1, o2, n2, o3, n3.
  rewrite !printed_lines_app, Hp1, Hp2, Hp3. reflexivity.
Qed.

(** X17: [check_color_file] returns [true] only when the file has passed in all
    three modes: then it has handed the file to the encoder in the modes
    [none], [line] and [sample], each check has returned [true], and the
    lines printed are the three Info lines of these checks, in that order, and
    so no mismatch line. *)
Theorem check_color_file_passed (source_filename : string) (fs : gmap string (list byte)) :
  run_outcome (check_color_file source_filename fs) = Ok true →
  let r_none := check_file source_filename none true fs in
  let r_line := check_file source_filename line true (run_files r_none) in
  let r_sample := check_file source_filename sample true (run_files r_line) in
  run_outcome r_none = Ok true ∧ run_outcome r_line = Ok true
  ∧ run_outcome r_sample = Ok true
  ∧ encoded_modes (run_trace (check_color_file source_filename fs)) = [none; line; sample]
  ∧ ∃ o1 n1 o2 n2 o3 n3,
      printed_lines (run_trace (check_color_file source_filename fs))
      = [EvPutsInfo o1 n1 "none" 6; EvPutsInfo o2 n2 "line" 6; EvPutsInfo o3 n3 "sample" 6].
Proof.
  intros Htrue r_none r_line r_sample.
  pose proof (check_color_file_true_lines source_filename fs Htrue) as Hlines.
  destruct (check_color_file_true_runs source_filename fs Htrue) as (H1 & H2 & H3 & Htrace).
  subst r_none r_line r_sample.
  split; [exact H1|]. split; [exact H2|]. split; [exact H3|]. split; [|exact Hlines].
  rewrite Htrace, !encoded_modes_app.
  destruct (check_file_trace source_filename none true fs) as [[-> | [_ Hn]] _];
    [|by destruct (Hn true)].
  destruct (check_file_trace source_filename line true
              (run_files (check_file source_filename none true fs)))
    as [[-> | [_ Hn]] _]; [|by destruct (Hn true)].
  destruct (check_file_trace source_filename sample true
              (run_files (check_file source_filename line true
                            (run_files (check_file source_filename none true fs)))))
    as [[-> | [_ Hn]] _]; [|by destruct (Hn true)].
  reflexivity.
Qed.

(** A check of either kind that returns [true] prints Info lines only. *)
Lemma check_true_lines (entry : string) (fs : gmap string (list byte)) (e : event) :
  let c := (if bool_decide (path.extension entry = ".pgm")
            then check_file entry none false else check_color_file entry) fs in
  run_outcome c = Ok true →
  e ∈ printed_lines (run_trace c) →
  ∃ o n label w, e = EvPutsInfo o n label w.
Proof.
  cbn zeta. destruct (bool_decide _).
  - intros Htrue. destruct (check_file_lines entry none false fs) as [Hl _].
    destruct (Hl Htrue) as (o & n & ->). intros ->%list_elem_of_singleton. eauto.
  - intros Htrue.
    destruct (check_color_file_true_lines entry fs Htrue)
      as (o1 & n1 & o2 & n2 & o3 & n3 & ->).
    rewrite !elem_of_cons, elem_of_nil. intros [-> | [-> | [-> | []]]]; eauto.
Qed.

(** A walk that ends with [EXIT_SUCCESS] has announced every [.pgm] and
    [.ppm] entry, and has printed nothing but these announcements, Info lines
    and passed status lines. *)
Lemma main_loop_success (entries : list string) (fs : gmap string (list byte)) :
  run_outcome (main_loop entries fs) = Ok EXIT_SUCCESS →
  (∀ entry, entry ∈ entries →
     path.extension entry = ".pgm" ∨ path.extension entry = ".ppm" →
     EvPuts ("Checking file: " +:+ entry) ∈ run_trace (main_loop entries fs))
  ∧ (∀ e, e ∈ printed_lines (run_trace (main_loop entries fs)) →
       e = EvPuts " Status: Passed"
       ∨ (∃ o n label w, e = EvPutsInfo o n label w)
       ∨ ∃ entry, entry ∈ entries
           ∧ (path.extension entry = ".pgm" ∨ path.extension entry = ".ppm")
           ∧ e = EvPuts ("Checking file: " +:+ entry)).
Proof.
  revert fs. induction entries as [|entry rest IH]; intros fs.
  { intros _. split; [by intros entry ?%elem_of_nil | by intros e ?%elem_of_nil]. }
  rewrite main_loop_cons.
  destruct (bool_decide (path.extension entry = ".pgm") || bool_decide (path.extension entry = ".ppm"))
    eqn:Htested.
  2:{ intros Hrest. destruct (IH fs Hrest) as [Hall Honly]. split.
      - intros entry' [->|Hin]%elem_of_cons Hext; [|by apply Hall].
        apply orb_false_iff in Htested as [Hpgm Hppm].
        apply bool_decide_eq_false in Hpgm, Hppm. by destruct Hext.
      - intros e Hin.
        destruct (Honly e Hin) as [-> | [Hinfo | (entry' & Hin' & Hext' & ->)]];
          [by left | right; by left |].
        right. right. exists entry'. split; [by apply list_elem_of_further | done]. }
  cbn zeta. pose proof (check_true_lines entry fs) as Hlines. cbn zeta in Hlines.
  set (check := if bool_decide (path.extension entry = ".pgm")
                then check_file entry none false else check_color_file entry) in *.
  destruct (check fs) as [o fs1 tr1]. cbn [run_outcome run_files run_trace] in *.
  destruct o as [[|]| |]; unfold prepend; cbn [run_outcome run_files run_trace app];
    [|intros [=]..].
  intros Hrest. destruct (IH fs1 Hrest) as [Hall Honly]. split.
  - intros entry' [->|Hin]%elem_of_cons Hext; [apply list_elem_of_here|].
    apply list_elem_of_further. rewrite !elem_of_app. right. by apply Hall.
  - intros e [Hin Hprinted]%elem_of_printed_lines. revert Hin.
    rewrite elem_of_cons, !elem_of_app, list_elem_of_singleton.
    intros [-> | [[Hin | ->] | Hin]].
    + right. right. exists entry. split; [apply list_elem_of_here|]. split; [|done].
      apply orb_true_iff in Htested as [Hpgm | Hppm].
      * left. by apply bool_decide_eq_true in Hpgm.
      * right. by apply bool_decide_eq_true in Hppm.
    + right. left. apply (Hlines e eq_refl). by apply elem_of_printed_lines.
    + by left.
    + assert (e ∈ printed_lines (run_trace (main_loop rest fs1))) as Hin'
        by by apply elem_of_printed_lines.
      destruct (Honly e Hin') as [-> | [Hinfo | (entry' & Hin'' & Hext' & ->)]];
        [by left | right; by left |].
      right. right. exists entry'. split; [by apply list_elem_of_further | done].
Qed.

(** X18: when [main] returns [EXIT_SUCCESS], every [.pgm] and [.ppm] entry of
    the directory has been announced, and every line printed is one of these
    announcements, an Info line of a check or a passed status line: no
    mismatch line, no failed status, no unexpected failure. *)
Theorem main_success (argv : list string) (fs : gmap string (list byte))
    (directory : string) (entries : list string) :
  argv !! 1%nat = Some directory →
  directory_entries fs directory = inr entries →
  run_outcome (main argv fs) = Ok EXIT_SUCCESS →
  (∀ entry, entry ∈ entries →
     path.extension entry = ".pgm" ∨ path.extension entry = ".ppm" →
     EvPuts ("Checking file: " +:+ entry) ∈ run_trace (main argv fs))
  ∧ (∀ e, e ∈ printed_lines (run_trace (main argv fs)) →
       e = EvPuts " Status: Passed"
       ∨ (∃ o n label w, e = EvPutsInfo o n label w)
       ∨ ∃ entry, entry ∈ entries
           ∧ (path.extension entry = ".pgm" ∨ path.extension entry = ".ppm")
           ∧ e = EvPuts ("Checking file: " +:+ entry)).
Proof.
  intros Hargv Hentries. unfold main, try_catch.
  assert (¬ Z.of_nat (length argv) < 2) as Hargc.
  { apply lookup_lt_Some in Hargv. lia. }
  rewrite decide_False by exact Hargc. rewrite Hargv.
  change (defined (Some directory)) with (ret directory). rewrite bind_ret, bind_emit.
  erewrite (bind_run _ _ fs fs (Ok entries) []) by (cbn beta; by rewrite Hentries).
  rewrite prepend_nil.
  pose proof (main_loop_success entries fs) as Hloop.
  destruct (main_loop entries fs) as [o fs1 tr1].
  unfold prepend. cbn [run_outcome run_files run_trace app] in *.
  destruct o as [code| |]; cbn [run_outcome run_files run_trace app]; [| |intros [=]].
  - intros [= ->]. destruct (Hloop eq_refl) as [Hall Honly]. split.
    + intros entry Hin Hext. apply list_elem_of_further. by apply Hall.
    + intros e Hin. by apply Honly.
  - intros [=].
Qed.

End Walk.

(** ** The loader, whatever the file *)

Section LoaderRuns.
Context {ext : Externals}.


End LoaderRuns.

(** ** The name of the output file of a plain source file *)

(** X20: for a source file whose stem has no period, the output file is named
    after it: the stem, a hyphen, the name of the mode and [.jls], in the
    directory of the source file. *)
Theorem generate_output_filename_stem_mode (source_filename : string)
    (mode : interleave_mode) :
  path.rsplit "." (path.stem source_filename) = None →
  generate_output_filename source_filename mode
  = path.remove_filename source_filename
    +:+ path.stem source_filename +:+ "-" +:+ interleave_mode_to_string mode +:+ ".jls".
Proof. apply generate_output_filename_plain_stem. Qed.

(** ** The further theorems at concrete inputs *)

Lemma triplet_to_planar_length_16bit :
  length (bytes_of [1;2; 7;8; 3;4; 9;10; 5;6; 11;12]) = length rgb16_2x1.
Proof.
  apply (triplet_to_planar_length rgb16_2x1 2 1 16). reflexivity.
Defined.

(** Five bytes are one short of the six samples of a 2x1 image. *)
Lemma triplet_to_planar_in_bounds_short :
  is_Some (triplet_to_planar (bytes_of [1;2;3;4;5]) 2 1 8)
  ↔ 2 * 1 * 3 * Z.of_nat (bytes_per_sample 8) ≤ Z.of_nat (length (bytes_of [1;2;3;4;5])).
Proof.
  apply (triplet_to_planar_in_bounds (bytes_of [1;2;3;4;5]) 2 1 8);
    [lia | lia | reflexivity].
Defined.

(** Two bytes more than the six samples of a 2x1 image. *)
Lemma triplet_to_planar_padding_8_bytes :
  ∃ planar,
    triplet_to_planar (take 6 (bytes_of [1;2;3;4;5;6;7;8])) 2 1 8 = Some planar
    ∧ triplet_to_planar (bytes_of [1;2;3;4;5;6;7;8]) 2 1 8
      = Some (planar ++ replicate (8 - 6) Byte.x00).
Proof.
  apply (triplet_to_planar_padding (bytes_of [1;2;3;4;5;6;7;8]) 2 1 8);
    [lia | lia | vm_compute; discriminate | reflexivity].
Defined.

Lemma test_by_decoding_stops_at_index_1 :
  test_by_decoding (ext := lossless_codec) (bytes_of [0;0;1;2;3]) (bytes_of [1;9;3]) ∅
  = Run (Ok false) ∅
      ([EvTestByDecoding (bytes_of [0;0;1;2;3]) (bytes_of [1;9;3]); EvClock;
        EvDecode (bytes_of [0;0;1;2;3]); EvClock]
       ++ (EvCompare <$> (Z.of_nat <$> seq 0 2)) ++ [value_mismatch]).
Proof.
  apply (test_by_decoding_stops_at_first_mismatch (ext := lossless_codec)
           (bytes_of [0;0;1;2;3]) (bytes_of [1;9;3]) ∅ (bytes_of [0;0;1;2;3]) 3
           (bytes_of [1;2;3]) 1);
    [reflexivity | reflexivity | reflexivity | reflexivity | reflexivity | reflexivity
     | cbn; lia | discriminate | ].
  intros j' Hj'. assert (j' = 0%nat) as -> by lia. reflexivity.
Defined.

Lemma test_by_decoding_compares_all_3 :
  test_by_decoding (ext := lossless_codec) (bytes_of [0;0;1;2;3]) (bytes_of [1;2;3]) ∅
  = Run (Ok true) ∅
      ([EvTestByDecoding (bytes_of [0;0;1;2;3]) (bytes_of [1;2;3]); EvClock;
        EvDecode (bytes_of [0;0;1;2;3]); EvClock]
       ++ (EvCompare <$> (Z.of_nat <$> seq 0 (length (bytes_of [1;2;3]))))).
Proof.
  apply (test_by_decoding_compares_all (ext := lossless_codec)
           (bytes_of [0;0;1;2;3]) (bytes_of [1;2;3]) ∅ (bytes_of [0;0;1;2;3]) 3);
    reflexivity.
Defined.

Lemma check_file_validates_what_it_wrote_2x1 :
  let r := check_file (ext := lossless_codec) "a.ppm" none true test_files in
  EvEncode none rgb_2x1_planar ∈ run_trace r
  ∧ EvWrite "a-none.jls" rgb_2x1_planar_stream ∈ run_trace r
  ∧ run_files r !! "a-none.jls"%string = Some rgb_2x1_planar_stream.
Proof.
  apply (check_file_validates_what_it_wrote (ext := lossless_codec) "a.ppm" none true
           test_files rgb_2x1_planar_stream rgb_2x1_planar).
  vm_compute. repeat constructor.
Defined.

Lemma check_file_report_2x1 :
  ∃ before image bits encoded_size,
    run_trace (check_file (ext := lossless_codec) "a.ppm" line true test_files)
    = before ++ [EvPutsInfo (Z.of_nat (length image)) encoded_size
                   (interleave_mode_to_string line) 6]
    ∧ EvEncode line image ∈ before
    ∧ EvWrite (generate_output_filename "a.ppm" line) bits ∈ before
    ∧ length bits = Z.to_nat encoded_size
    ∧ ∀ o n label w, EvPutsInfo o n label w ∉ before.
Proof.
  apply (check_file_report (ext := lossless_codec) "a.ppm" line true test_files true).
  reflexivity.
Defined.


Lemma generate_output_filename_stem_mode_a :
  generate_output_filename "dir/a.ppm" sample
  = path.remove_filename "dir/a.ppm"
    +:+ path.stem "dir/a.ppm" +:+ "-" +:+ interleave_mode_to_string sample +:+ ".jls".
Proof.
  apply (generate_output_filename_stem_mode "dir/a.ppm" sample). reflexivity.
Defined.

Lemma check_color_file_keeps_inputs_a :
  let r_none := check_file (ext := lossless_codec) "a.ppm" none true test_files in
  let r_line := check_file (ext := lossless_codec) "a.ppm" line true (run_files r_none) in
  run_files r_none !! "a.ppm"%string = test_files !! "a.ppm"%string
  ∧ run_files r_line !! "a.ppm"%string = test_files !! "a.ppm"%string
  ∧ run_files (check_color_file (ext := lossless_codec) "a.ppm" test_files) !! "a.ppm"%string
    = test_files !! "a.ppm"%string.
Proof.
  apply (check_color_file_keeps_inputs (ext := lossless_codec) "a.ppm" test_files "a.ppm").
  discriminate.
Defined.

Lemma check_color_file_passed_a :
  let r_none := check_file (ext := lossless_codec) "a.ppm" none true test_files in
  let r_line := check_file (ext := lossless_codec) "a.ppm" line true (run_files r_none) in
  let r_sample := check_file (ext := lossless_codec) "a.ppm" sample true (run_files r_line) in
  run_outcome r_none = Ok true ∧ run_outcome r_line = Ok true
  ∧ run_outcome r_sample = Ok true
  ∧ encoded_modes (run_trace (check_color_file (ext := lossless_codec) "a.ppm" test_files))
    = [none; line; sample]
  ∧ ∃ o1 n1 o2 n2 o3 n3,
      printed_lines (run_trace (check_color_file (ext := lossless_codec) "a.ppm" test_files))
      = [EvPutsInfo o1 n1 "none" 6; EvPutsInfo o2 n2 "line" 6; EvPutsInfo o3 n3 "sample" 6].
Proof.
  apply (check_color_file_passed (ext := lossless_codec) "a.ppm" test_files). reflexivity.
Defined.

Lemma main_keeps_inputs_a :
  run_files (main (ext := line_broken_codec) ["charls_image_tester"; ""]%string test_files)
    !! "img.v2.ppm"%string
  = test_files !! "img.v2.ppm"%string.
Proof.
  apply (main_keeps_inputs (ext := line_broken_codec) ["charls_image_tester"; ""]%string
           test_files "img.v2.ppm").
  discriminate.
Defined.


(** The walk over the directory [images], with its grey and its colour
    file. *)
Lemma main_success_lossless :
  (∀ entry, entry ∈ ["images/g.pgm"; "images/a.ppm"]%string →
     path.extension entry = ".pgm" ∨ path.extension entry = ".ppm" →
     EvPuts ("Checking file: " +:+ entry)
       ∈ run_trace (main (ext := lossless_codec) ["charls_image_tester"; "images"]%string
                      test_directory))
  ∧ (∀ e,
       e ∈ printed_lines
             (run_trace (main (ext := lossless_codec) ["charls_image_tester"; "images"]%string
                           test_directory)) →
       e = EvPuts " Status: Passed"
       ∨ (∃ o n label w, e = EvPutsInfo o n label w)
       ∨ ∃ entry, entry ∈ ["images/g.pgm"; "images/a.ppm"]%string
           ∧ (path.extension entry = ".pgm" ∨ path.extension entry = ".ppm")
           ∧ e = EvPuts ("Checking file: " +:+ entry)).
Proof.
  apply (main_success (ext := lossless_codec) ["charls_image_tester"; "images"]%string
           test_directory "images");
    [reflexivity | vm_compute; reflexivity | reflexivity].
Defined.

(** A failing validation, a failing check and a passing check on the test
    codecs. *)
Lemma test_by_decoding_verdict_reason_value :
  ∃ before,
    (run_trace (test_by_decoding (ext := lossless_codec) (bytes_of [0;0;1;2;3])
                  (bytes_of [1;9;3]) ∅) = before ++ [size_mismatch]
     ∨ run_trace (test_by_decoding (ext := lossless_codec) (bytes_of [0;0;1;2;3])
                    (bytes_of [1;9;3]) ∅) = before ++ [value_mismatch])
    ∧ ∀ text, EvPuts text ∉ before.
Proof.
  destruct (test_by_decoding_verdict_reason (ext := lossless_codec) (bytes_of [0;0;1;2;3])
              (bytes_of [1;9;3]) ∅) as (_ & _ & Hfalse).
  exact (Hfalse eq_refl).
Defined.

(** With the decoder that spoils streams of mode [line], the check of the
    colour file in that mode prints a mismatch line and its Info line. *)
Lemma check_file_verdict_line_broken :
  ∃ mismatch o n,
    (mismatch = size_mismatch ∨ mismatch = value_mismatch)
    ∧ printed_lines
        (run_trace (check_file (ext := line_broken_codec) "a.ppm" line true test_files))
      = [mismatch; EvPutsInfo o n (interleave_mode_to_string line) 6].
Proof.
  destruct (check_file_verdict (ext := line_broken_codec) "a.ppm" line true test_files)
    as [_ Hfalse].
  exact (Hfalse eq_refl).
Defined.

Lemma check_file_touches_only_output_a :
  ∃ bits,
    run_files (check_file (ext := lossless_codec) "a.ppm" none true test_files)
      !! generate_output_filename "a.ppm" none = Some bits
    ∧ EvWrite (generate_output_filename "a.ppm" none) bits
        ∈ run_trace (check_file (ext := lossless_codec) "a.ppm" none true test_files).
Proof.
  destruct (check_file_touches_only_output (ext := lossless_codec) "a.ppm" none true
              test_files) as [_ Hresult].
  exact (Hresult true eq_refl).
Defined.
